(** * omics-ai-mcp: the HTTP session bridge and the tool server

    A shallow embedding of [src/http-wrapper.js] (the session bridge that
    fronts one worker process per session) and of the tool server that
    follows it in the same file (the response classifier, the two polling
    loops, the tool dispatcher and the network-address resolver), with the
    properties the specification states about them.

    Part I holds the definitions, Part II the lemmas and theorems. *)

From Stdlib Require Import ZArith NArith QArith Lqa List Lia Bool DecimalString.
From Stdlib Require Import Strings.String Strings.Ascii Strings.Byte.
From stdpp Require Import base option list gmap.

(* ===================================================================== *)
(** * Part I: definitions *)
(* ===================================================================== *)

(** ** The language's strings

    A string of the language is a sequence of 16-bit code units; a code
    unit is kept as an [N]. *)

Module JS.

Abbreviation jsstring := (list N).

(** A literal of the source, read character by character. *)
Definition js (s : string) : jsstring :=
  map N_of_ascii (list_ascii_of_string s).

(** A literal holding JSON text, written with an apostrophe wherever the
    text has a double quote; a bar stands for the line feed. *)
Definition json_text (s : string) : jsstring :=
  map (fun c : N => if (c =? 39)%N then 34%N else if (c =? 124)%N then 10%N else c)
      (js s).

Definition LF : N := 10.

Definition is_empty {A} (l : list A) : bool :=
  match l with [] => true | _ => false end.

(** ToBoolean of a string. *)
Definition nonblank (s : jsstring) : bool := negb (is_empty s).

(** [===] on two strings. *)
Fixpoint str_eqb (a b : jsstring) : bool :=
  match a, b with
  | [], [] => true
  | x :: a', y :: b' => (x =? y)%N && str_eqb a' b'
  | _, _ => false
  end.

(** [String.prototype.startsWith]. *)
Fixpoint startsWith (s prefix : jsstring) {struct prefix} : bool :=
  match prefix, s with
  | [], _ => true
  | p :: prefix', c :: s' => (c =? p)%N && startsWith s' prefix'
  | _ :: _, [] => false
  end.

(** WhiteSpace and LineTerminator of the language: what
    [String.prototype.trim] removes. *)
Definition isWhite (c : N) : bool :=
  ((9 <=? c) && (c <=? 13) || (c =? 32) || (c =? 160) || (c =? 5760)
   || (8192 <=? c) && (c <=? 8202) || (c =? 8232) || (c =? 8233)
   || (c =? 8239) || (c =? 8287) || (c =? 12288) || (c =? 65279))%N.

Fixpoint trimStart (s : jsstring) : jsstring :=
  match s with
  | c :: r => if isWhite c then trimStart r else s
  | [] => []
  end.

Definition trimEnd (s : jsstring) : jsstring := rev (trimStart (rev s)).

(** [String.prototype.trim]. *)
Definition trim (s : jsstring) : jsstring := trimEnd (trimStart s).

(** [s.split(sep)] for a separator of one code unit: never an empty array. *)
Fixpoint split (sep : N) (s : jsstring) : list jsstring :=
  match s with
  | [] => [[]]
  | c :: r =>
      if (c =? sep)%N then [] :: split sep r
      else match split sep r with
           | l :: ls => (c :: l) :: ls
           | [] => [[c]]
           end
  end.

(** The pieces of a text cut in two, from the pieces of its halves: the
    last piece on the left continues in the first piece on the right. *)
Fixpoint glue (front back : list jsstring) : list jsstring :=
  match front with
  | [] => back
  | [l] => match back with r :: rs => (l ++ r) :: rs | [] => [l] end
  | l :: ls => l :: glue ls back
  end.

(** [s.substring(0, n)]. *)
Definition substring0 (n : nat) (s : jsstring) : jsstring := take n s.

(** ** Values

    What [JSON.parse] builds. A number keeps the decimal it was written as,
    [m * 10 ^ e]; the program only ever asks whether a number is zero or
    positive. An object keeps its members in insertion order, one per key. *)

Unset Elimination Schemes.
Inductive JSON :=
| JNull
| JBool (b : bool)
| JNumber (m e : Z)
| JString (s : jsstring)
| JArray (l : list JSON)
| JObject (o : list (jsstring * JSON)).
Set Elimination Schemes.

(** The double nearest to [m * 10 ^ e] is zero: [m] is zero, or the value
    is at most [2 ^ -1075], half the least positive double. *)
Definition is_zero (m e : Z) : bool :=
  ((m =? 0) || (e <? 0) && (Z.abs m * 2 ^ 1075 <=? 10 ^ (- e)))%Z.

(** ToBoolean. *)
Definition truthy (v : JSON) : bool :=
  match v with
  | JNull => false
  | JBool b => b
  | JNumber m e => negb (is_zero m e)
  | JString s => negb (is_empty s)
  | JArray _ | JObject _ => true
  end.

(** ToBoolean of a value that may be [undefined]. *)
Definition truthy_opt (v : option JSON) : bool :=
  match v with Some v => truthy v | None => false end.

(** The own property [k] of an object built by [JSON.parse]. *)
Fixpoint assoc (k : jsstring) (o : list (jsstring * JSON)) : option JSON :=
  match o with
  | [] => None
  | (k', v) :: o' => if str_eqb k' k then Some v else assoc k o'
  end.

(** CreateDataProperty: a repeated key keeps its place and takes the later
    value. *)
Fixpoint setProperty (k : jsstring) (v : JSON) (o : list (jsstring * JSON))
  : list (jsstring * JSON) :=
  match o with
  | [] => [(k, v)]
  | (k', v') :: o' =>
      if str_eqb k' k then (k', v) :: o' else (k', v') :: setProperty k v o'
  end.

(** ** [JSON.parse] *)

Definition isJsonWhite (c : N) : bool :=
  ((c =? 32) || (c =? 9) || (c =? 10) || (c =? 13))%N.

Fixpoint skipWhite (s : jsstring) : jsstring :=
  match s with
  | c :: r => if isJsonWhite c then skipWhite r else s
  | [] => []
  end.

Definition digit (c : N) : option Z :=
  if ((48 <=? c) && (c <=? 57))%N then Some (Z.of_N (c - 48)) else None.

(** The longest run of digits at the head of [s]: its value after [acc],
    how many there were, and the rest. *)
Fixpoint digits (s : jsstring) (acc : Z) (n : nat) : Z * nat * jsstring :=
  match s with
  | c :: r =>
      match digit c with
      | Some d => digits r (10 * acc + d)%Z (S n)
      | None => (acc, n, s)
      end
  | [] => (acc, n, [])
  end.

(** The exponent part, if one starts here. *)
Definition parseExponent (s : jsstring) : option (Z * jsstring) :=
  match s with
  | c :: r =>
      if ((c =? 101) || (c =? 69))%N then
        let '(neg, r1) :=
          match r with
          | sgn :: r' =>
              if (sgn =? 45)%N then (true, r')
              else if (sgn =? 43)%N then (false, r') else (false, r)
          | [] => (false, r)
          end in
        match digits r1 0 0 with
        | (_, O, _) => None
        | (x, _, r2) => Some (if neg then (- x)%Z else x, r2)
        end
      else Some (0%Z, s)
  | [] => Some (0%Z, s)
  end.

(** The fraction and exponent after the integer part [i]. *)
Definition parseFraction (i : Z) (s : jsstring) : option (Z * Z * jsstring) :=
  match s with
  | c :: r =>
      if (c =? 46)%N then
        match digits r i 0 with
        | (_, O, _) => None
        | (m, n, r1) =>
            match parseExponent r1 with
            | Some (x, r2) => Some (m, (x - Z.of_nat n)%Z, r2)
            | None => None
            end
        end
      else
        match parseExponent s with
        | Some (x, r2) => Some (i, x, r2)
        | None => None
        end
  | [] => Some (i, 0%Z, s)
  end.

Definition parseNumber (s : jsstring) : option (JSON * jsstring) :=
  let '(neg, s1) :=
    match s with
    | c :: r => if (c =? 45)%N then (true, r) else (false, s)
    | [] => (false, s)
    end in
  let int_part :=
    match s1 with
    | c :: r =>
        if (c =? 48)%N then Some (0%Z, r)
        else match digits s1 0 0 with
             | (_, O, _) => None
             | (i, _, r1) => Some (i, r1)
             end
    | [] => None
    end in
  match int_part with
  | Some (i, r1) =>
      match parseFraction i r1 with
      | Some (m, e, r2) => Some (JNumber (if neg then (- m)%Z else m) e, r2)
      | None => None
      end
  | None => None
  end.

Definition hexDigit (c : N) : option N :=
  if ((48 <=? c) && (c <=? 57))%N then Some (c - 48)%N
  else if ((97 <=? c) && (c <=? 102))%N then Some (c - 87)%N
  else if ((65 <=? c) && (c <=? 70))%N then Some (c - 55)%N
  else None.

Definition hex4 (a b c d : N) : option N :=
  match hexDigit a, hexDigit b, hexDigit c, hexDigit d with
  | Some a, Some b, Some c, Some d => Some (((a * 16 + b) * 16 + c) * 16 + d)%N
  | _, _, _, _ => None
  end.

(** The character a one-letter escape stands for. *)
Definition escape (c : N) : option N :=
  if (c =? 34)%N then Some 34%N
  else if (c =? 92)%N then Some 92%N
  else if (c =? 47)%N then Some 47%N
  else if (c =? 98)%N then Some 8%N
  else if (c =? 102)%N then Some 12%N
  else if (c =? 110)%N then Some 10%N
  else if (c =? 114)%N then Some 13%N
  else if (c =? 116)%N then Some 9%N
  else None.

(** The rest of a string literal, after its opening quote; [acc] holds the
    characters read so far, last first. *)
Fixpoint parseString (s : jsstring) (acc : jsstring) : option (jsstring * jsstring) :=
  match s with
  | [] => None
  | c :: r =>
      if (c =? 34)%N then Some (rev acc, r)
      else if (c =? 92)%N then
        match r with
        | e :: r1 =>
            if (e =? 117)%N then
              match r1 with
              | h1 :: h2 :: h3 :: h4 :: r2 =>
                  match hex4 h1 h2 h3 h4 with
                  | Some u => parseString r2 (u :: acc)
                  | None => None
                  end
              | _ => None
              end
            else
              match escape e with
              | Some x => parseString r1 (x :: acc)
              | None => None
              end
        | [] => None
        end
      else if (c <? 32)%N then None
      else parseString r (c :: acc)
  end.

(** One of the three literal names, when [s] starts with it. *)
Definition parseLiteral (s : jsstring) : option (JSON * jsstring) :=
  if startsWith s (js "true") then Some (JBool true, drop 4 s)
  else if startsWith s (js "false") then Some (JBool false, drop 5 s)
  else if startsWith s (js "null") then Some (JNull, drop 4 s)
  else None.

(** A value, the elements of an array after its bracket, the members of an
    object after its brace. Every call spends one unit of [fuel] and reads
    at least one character before the next, so [2 * length s + 2] is enough
    for a text [s] (lemma [JSON_parse_fuel]). *)
Fixpoint parseValue (fuel : nat) (s : jsstring) : option (JSON * jsstring) :=
  match fuel with
  | O => None
  | S f =>
      match skipWhite s with
      | [] => None
      | c :: r =>
          if (c =? 123)%N then
            match skipWhite r with
            | c' :: r' =>
                if (c' =? 125)%N then Some (JObject [], r')
                else parseMembers f r []
            | [] => None
            end
          else if (c =? 91)%N then
            match skipWhite r with
            | c' :: r' =>
                if (c' =? 93)%N then Some (JArray [], r')
                else parseElements f r []
            | [] => None
            end
          else if (c =? 34)%N then
            match parseString r [] with
            | Some (str, r') => Some (JString str, r')
            | None => None
            end
          else if ((c =? 116) || (c =? 102) || (c =? 110))%N then
            parseLiteral (c :: r)
          else parseNumber (c :: r)
      end
  end
with parseElements (fuel : nat) (s : jsstring) (acc : list JSON)
  : option (JSON * jsstring) :=
  match fuel with
  | O => None
  | S f =>
      match parseValue f s with
      | Some (v, r) =>
          match skipWhite r with
          | c :: r' =>
              if (c =? 44)%N then parseElements f r' (v :: acc)
              else if (c =? 93)%N then Some (JArray (rev (v :: acc)), r')
              else None
          | [] => None
          end
      | None => None
      end
  end
with parseMembers (fuel : nat) (s : jsstring) (acc : list (jsstring * JSON))
  : option (JSON * jsstring) :=
  match fuel with
  | O => None
  | S f =>
      match skipWhite s with
      | c :: r =>
          if (c =? 34)%N then
            match parseString r [] with
            | Some (k, r1) =>
                match skipWhite r1 with
                | c1 :: r2 =>
                    if (c1 =? 58)%N then
                      match parseValue f r2 with
                      | Some (v, r3) =>
                          match skipWhite r3 with
                          | c3 :: r4 =>
                              if (c3 =? 44)%N
                              then parseMembers f r4 (setProperty k v acc)
                              else if (c3 =? 125)%N
                              then Some (JObject (setProperty k v acc), r4)
                              else None
                          | [] => None
                          end
                      | None => None
                      end
                    else None
                | [] => None
                end
            | None => None
            end
          else None
      | [] => None
      end
  end.

(** [JSON.parse(text)]: the value, or [None] where it throws a SyntaxError. *)
Definition JSON_parse (text : jsstring) : option JSON :=
  match parseValue (2 * length text + 2) text with
  | Some (v, r) => if is_empty (skipWhite r) then Some v else None
  | None => None
  end.

(** ** Exceptions

    A message is kept as the pieces of the template that builds it: the
    literal text of the source and what is put between. *)

Inductive piece :=
| Lit (text : string)     (* text of the template *)
| Str (s : jsstring)      (* a string put into it *)
| Int (n : Z)             (* an integer put into it *)
| Val (v : JSON)          (* String(v) *)
| Keys (v : JSON)         (* String(Object.keys(v)) *)
| Num (q : Q)             (* a number put into it *)
| Runtime                 (* the wording of the runtime, left out *).

Abbreviation message := (list piece).

(** An exception the program throws with [new Error(message)] (the errors of
    the HTTP client and of [encodeURIComponent] count among them), or a
    TypeError of the runtime. *)
Inductive exn :=
| Error (m : message)
| TypeError.

(** [error.message]. *)
Definition exn_message (e : exn) : message :=
  match e with Error m => m | TypeError => [Runtime] end.

(** What a call returns: a value, or the exception it threw. *)
Inductive result (A : Type) :=
| ok (a : A)
| throw (e : exn).
Arguments ok {A} a.
Arguments throw {A} e.

#[global] Instance result_ret : MRet result := fun A a => ok a.
#[global] Instance result_bind : MBind result := fun A B f c =>
  match c with ok a => f a | throw e => throw e end.

Definition is_TypeError {A} (r : result A) : bool :=
  match r with throw TypeError => true | _ => false end.

(** [try { c } catch (error) { h(error) }]. *)
Definition try_catch {A} (c : result A) (h : exn -> result A) : result A :=
  match c with ok a => ok a | throw e => h e end.

(** ** Properties of values *)

(** [k in v], for a key [k] that is no index, not [length] and not a name a
    prototype defines (the program asks for [data] and [next_page_token]);
    [in] throws on a value that is no object. *)
Definition has_property (k : jsstring) (v : JSON) : result bool :=
  match v with
  | JObject o => ok (bool_decide (is_Some (assoc k o)))
  | JArray _ => ok false
  | _ => throw TypeError
  end.

(** [Object.keys(v).length], for [v] other than [null]. *)
Definition keys_length (v : JSON) : nat :=
  match v with
  | JObject o => length o
  | JArray l => length l
  | JString s => length s
  | _ => 0
  end.

(** The decimal name of an index. *)
Definition show_nat (n : nat) : jsstring :=
  js (NilEmpty.string_of_uint (Nat.to_uint n)).

Definition of_nat (n : nat) : JSON := JNumber (Z.of_nat n) 0.

(** The element of an array, or the character of a string, that the key
    [k] names, indices counted from [i]. *)
Fixpoint at_index {A} (k : jsstring) (i : nat) (l : list A) : option A :=
  match l with
  | [] => None
  | x :: r => if str_eqb (show_nat i) k then Some x else at_index k (S i) r
  end.

(** The own property [k] of a value other than [null]; [None] is
    [undefined]. *)
Definition own (k : jsstring) (v : JSON) : option JSON :=
  match v with
  | JObject o => assoc k o
  | JArray l =>
      if str_eqb k (js "length") then Some (of_nat (length l)) else at_index k 0 l
  | JString s =>
      if str_eqb k (js "length") then Some (of_nat (length s))
      else (fun c => JString [c]) <$> at_index k 0 s
  | _ => None
  end.

(** [v.k]: reading a property of [null] throws. The keys the program reads
    this way are defined by no prototype. *)
Definition get (k : jsstring) (v : JSON) : result (option JSON) :=
  match v with
  | JNull => throw TypeError
  | _ => ok (own k v)
  end.

(** [v?.k], [v] itself possibly [undefined]. *)
Definition get_opt (k : jsstring) (v : option JSON) : option JSON :=
  match v with
  | None | Some JNull => None
  | Some v => own k v
  end.

(** [Object.keys(v)], for [v] other than [null]; their order is left out. *)
Definition own_keys (v : JSON) : list jsstring :=
  match v with
  | JObject o => map fst o
  | JArray l => map show_nat (seq 0 (length l))
  | JString s => map show_nat (seq 0 (length s))
  | _ => []
  end.

(** [a || b]. *)
Definition or_else (a : option JSON) (b : JSON) : JSON :=
  match a with Some v => if truthy v then v else b | None => b end.

(** ToPrimitive of [v] throws: an object whose own [toString] hides the
    inherited one (no value of a JSON text can be called), or an array that
    holds such an object. *)
Fixpoint toPrimitive_throws (v : JSON) : bool :=
  match v with
  | JObject o => bool_decide (is_Some (assoc (js "toString") o))
  | JArray l => existsb toPrimitive_throws l
  | _ => false
  end.

(** [m * 10 ^ e > 0] as doubles. *)
Definition number_positive (m e : Z) : bool := (0 <? m)%Z && negb (is_zero m e).

(** The digits of a numeral in base [b], if [s] is one. *)
Fixpoint radix_positive (b : N) (s : jsstring) : option bool :=
  match s with
  | [] => Some false
  | c :: r =>
      match hexDigit c with
      | Some d =>
          if (d <? b)%N then
            match radix_positive b r with
            | Some p => Some ((0 <? d)%N || p)
            | None => None
            end
          else None
      | None => None
      end
  end.

(** StringToNumber(s) > 0. *)
Definition string_positive (s : jsstring) : bool :=
  let t := trim s in
  let prefixed (x y : N) (b : N) :=
    match t with
    | z :: p :: d :: r =>
        if ((z =? 48) && ((p =? x) || (p =? y)))%N
        then Some (default false (radix_positive b (d :: r)))
        else None
    | _ => None
    end in
  match prefixed 120%N 88%N 16%N, prefixed 111%N 79%N 8%N, prefixed 98%N 66%N 2%N with
  | Some p, _, _ | None, Some p, _ | None, None, Some p => p
  | None, None, None =>
      let u := match t with c :: r => if (c =? 43)%N then r else t | [] => t end in
      if str_eqb u (js "Infinity") then true
      else
        (* digits, then a point and digits, then an exponent; digits on at
           least one side of the point *)
        let '(i, ni, r1) := digits u 0 0 in
        let '(m, nf, r2) :=
          match r1 with
          | c :: r => if (c =? 46)%N then digits r i 0 else (i, O, r1)
          | [] => (i, O, r1)
          end in
        if (ni + nf =? 0)%nat then false
        else
          match parseExponent r2 with
          | Some (x, []) => number_positive m (x - Z.of_nat nf)
          | _ => false
          end
  end.

(** ToNumber(String(v)) > 0, for [v] whose conversion does not throw: of
    an array, the text of its elements joined by commas. *)
Fixpoint text_positive (v : JSON) : bool :=
  match v with
  | JNumber m e => number_positive m e
  | JString s => string_positive s
  | JArray [x] => match x with JNull => false | _ => text_positive x end
  | _ => false
  end.

(** [v > 0]. *)
Definition positive (v : option JSON) : result bool :=
  match v with
  | None | Some JNull => ok false
  | Some (JBool b) => ok b
  | Some (JNumber m e) => ok (number_positive m e)
  | Some (JString s) => ok (string_positive s)
  | Some (JArray l) =>
      if toPrimitive_throws (JArray l) then throw TypeError
      else ok (text_positive (JArray l))
  | Some (JObject o) =>
      if toPrimitive_throws (JObject o) then throw TypeError else ok false
  end.

(** [v === 0]. *)
Definition is_number_zero (v : option JSON) : bool :=
  match v with Some (JNumber m e) => is_zero m e | _ => false end.

(** A string with no lone surrogate. *)
Fixpoint well_formed (s : jsstring) : bool :=
  match s with
  | [] => true
  | c :: r =>
      if ((55296 <=? c) && (c <=? 56319))%N then
        match r with
        | d :: r' => ((56320 <=? d) && (d <=? 57343))%N && well_formed r'
        | [] => false
        end
      else if ((56320 <=? c) && (c <=? 57343))%N then false
      else well_formed r
  end.

(** [encodeURIComponent(s)] throws a URIError on a lone surrogate; the
    encoded text itself is left out. *)
Definition encodeURIComponent (s : jsstring) : result unit :=
  if well_formed s then ok tt else throw (Error [Lit "URI malformed"]).

End JS.

(** ** The line-delimited response classifier *)

Module Classifier.
Import JS.

(** One of the two scans from the last object to the first: the nearest
    object from the end for which [obj && k in obj] holds. *)
Fixpoint findLast (k : jsstring) (reversed : list JSON) : result (option JSON) :=
  match reversed with
  | [] => ok None
  | obj :: rest =>
      if truthy obj then
        found ← has_property k obj;
        if found : bool then ok (Some obj) else findLast k rest
      else findLast k rest
  end.

(** [obj && Object.keys(obj).length > 0]. *)
Definition nonEmpty (obj : JSON) : bool :=
  truthy obj && (0 <? keys_length obj)%nat.

Definition parseJsonLinesResponse (rawText : jsstring) : result JSON :=
  if is_empty (trim rawText) then
    throw (Error [Lit "Empty response received"])
  else
    let lines :=
      List.filter nonblank (map trim (split LF (trim rawText))) in
    if is_empty lines then
      throw (Error [Lit "No valid lines found in response"])
    else
      (* a line that fails to parse is skipped *)
      let jsonObjects := omap JSON_parse lines in
      if is_empty jsonObjects then
        throw (Error [Lit "No valid JSON objects found in response"])
      else
        withData ← findLast (js "data") (rev jsonObjects);
        match withData with
        | Some obj => ok obj
        | None =>
            withToken ← findLast (js "next_page_token") (rev jsonObjects);
            match withToken with
            | Some obj => ok obj
            | None =>
                let nonEmptyObjects := List.filter nonEmpty jsonObjects in
                match last nonEmptyObjects with
                | Some obj => ok obj
                | None =>
                    throw (Error [Lit "No data or next_page_token found in response"])
                end
            end
        end.

(** A parsed line on which no scan throws: an object, an array, or a
    value that counts as false ([null], [false], zero, the empty string). *)
Definition harmless (v : JSON) : bool :=
  match v with
  | JObject _ | JArray _ => true
  | _ => negb (truthy v)
  end.

(** An object or an array. *)
Definition is_object (v : JSON) : bool :=
  match v with JObject _ | JArray _ => true | _ => false end.

(** *** The classifier as the specification words it *)

Inductive failure :=
| NoValidJsonObjects
| NoDataOrContinuation.

Inductive Classified :=
| DataRows (obj : JSON)
| Continuation (obj : JSON)
| Empty (obj : JSON)
| ParseFailure (why : failure).

(** The fields of a parsed line: the keys of an object, the indices of an
    array; any other value has none. *)
Definition contains (field : jsstring) (v : JSON) : bool :=
  match v with
  | JObject o => bool_decide (is_Some (assoc field o))
  | _ => false
  end.

Definition field_count (v : JSON) : nat :=
  match v with
  | JObject o => length o
  | JArray l => length l
  | _ => 0
  end.

(** The non-blank trimmed lines of a body. *)
Definition lines_of (body : jsstring) : list jsstring :=
  List.filter nonblank (map trim (split LF body)).

Definition classify (body : jsstring) : Classified :=
  let parsed := omap JSON_parse (lines_of body) in
  match List.find (contains (js "data")) (rev parsed) with
  | Some obj => DataRows obj
  | None =>
      match List.find (contains (js "next_page_token")) (rev parsed) with
      | Some obj => Continuation obj
      | None =>
          match List.find (fun obj => (0 <? field_count obj)%nat) (rev parsed) with
          | Some obj => Empty obj
          | None =>
              match parsed with
              | [] => ParseFailure NoValidJsonObjects
              | _ :: _ => ParseFailure NoDataOrContinuation
              end
          end
      end
  end.

(** What the caller of the classifier sees of a classified response. *)
Definition outcome (c : Classified) : result JSON :=
  match c with
  | DataRows obj | Continuation obj | Empty obj => ok obj
  | ParseFailure NoValidJsonObjects =>
      throw (Error [Lit "No valid JSON objects found in response"])
  | ParseFailure NoDataOrContinuation =>
      throw (Error [Lit "No data or next_page_token found in response"])
  end.

End Classifier.

(** ** The network-address resolver *)

Module Network.
Import JS.

Definition knownNetworks : list (jsstring * jsstring) :=
  [ (js "hifisolves", js "hifisolves.org");
    (js "neuroscience", js "neuroscience.ai");
    (js "asap", js "cloud.parkinsonsroadmap.org");
    (js "parkinsons", js "cloud.parkinsonsroadmap.org");
    (js "biomedical", js "biomedical.ai");
    (js "viral", js "viral.ai");
    (js "targetals", js "dataportal.targetals.org") ].

(** The names every object literal inherits: [in] finds them too, and what
    they name is no string. *)
Definition inherited : list jsstring :=
  map js [ "constructor"; "__defineGetter__"; "__defineSetter__";
           "hasOwnProperty"; "__lookupGetter__"; "__lookupSetter__";
           "isPrototypeOf"; "propertyIsEnumerable"; "toString"; "valueOf";
           "__proto__"; "toLocaleString" ]%string.

Fixpoint lookup (k : jsstring) (table : list (jsstring * jsstring)) : option jsstring :=
  match table with
  | [] => None
  | (k', v) :: table' => if str_eqb k' k then Some v else lookup k table'
  end.

(** [s.replace(/\/$/, '')]: one slash at the very end goes. *)
Definition dropTrailingSlash (s : jsstring) : jsstring :=
  match rev s with
  | c :: r => if (c =? 47)%N then rev r else s
  | [] => s
  end.

(** [String.prototype.endsWith]. *)
Definition endsWith (s suffix : jsstring) : bool := startsWith (rev s) (rev suffix).

Definition hasScheme (s : jsstring) : bool :=
  startsWith s (js "http://") || startsWith s (js "https://").

(** The address with its scheme, as [getNetworkUrl] holds it just before it
    drops the last slash. *)
Definition qualify (network : jsstring) : result jsstring :=
  network ←
    match lookup network knownNetworks with
    | Some host => ok host
    | None => if existsb (str_eqb network) inherited then throw TypeError else ok network
    end;
  ok (if negb (startsWith network (js "http://"))
         && negb (startsWith network (js "https://"))
      then js "https://" ++ network
      else network).

Definition getNetworkUrl (network : jsstring) : result jsstring :=
  network ←
    match lookup network knownNetworks with
    | Some host => ok host
    | None =>
        if existsb (str_eqb network) inherited
        then throw TypeError
        else ok network
    end;
  let network :=
    if negb (startsWith network (js "http://"))
       && negb (startsWith network (js "https://"))
    then js "https://" ++ network
    else network in
  ok (dropTrailingSlash network).

End Network.

(** ** The polling query engine *)

Module Args.

(** The arguments of a tool call, typed as the tools' schemas declare them;
    [None] is a key left out. *)
Record t := {
  network : JS.jsstring;
  access_token : option JS.jsstring;
  collection_slug : option JS.jsstring;
  table_name : option JS.jsstring;
  filters : option JS.JSON;
  limit : option JS.JSON;
  offset : option JS.JSON;
  order_by : option JS.JSON;
  sql : option JS.jsstring;
  max_polls : option Z;
  poll_interval : option Q }.

End Args.

Module Engine.
Import JS Classifier Network.

(** *** The remote service, as the HTTP client shows it *)

(** A response: its data as the client decoded it, under a JSON content
    type, or its data as text under whatever content type came with it. A
    response whose data the client decoded although its content type is not
    JSON is not modelled. *)
Inductive response :=
| Json (data : JSON)
| Text (content_type : option jsstring) (data : jsstring).

(** [response.data]. *)
Definition data_of (r : response) : JSON :=
  match r with Json d => d | Text _ s => JString s end.

(** [headers['content-type'] &&
    headers['content-type'].startsWith('application/json')]. *)
Definition isJson (r : response) : bool :=
  match r with
  | Json _ => true
  | Text (Some c) _ => nonblank c && startsWith c (js "application/json")
  | Text None _ => false
  end.

(** A request ends in a response or in an error of the transport (no
    connection, a timeout, a status outside 2xx). *)
Inductive served :=
| Refused (why : jsstring)
| Answered (r : response).

Record client := { baseURL : jsstring; authorization : option jsstring }.

(** The body of a table query. *)
Record Payload := {
  tableName : option jsstring;
  filters : JSON;
  pagination : JSON * JSON;
  order : option JSON;
  next_page_token : option JSON }.

Inductive request :=
| FilterRows (collection_slug table_name : jsstring) (payload : Payload)
| Search (collection_slug : jsstring) (query : option jsstring)
| Page (url : JSON)
| Another (url : jsstring).

Inductive event :=
| Request (c : client) (r : request)
| Delay (ms : Q).

(** What a tool hands back: the text of its one content item, kept by the
    template that words it. *)
Inductive reply :=
| Rows (table_name : option jsstring) (result : JSON)
| NoResults (sql : option jsstring)
| SqlResults (result : JSON) (sql : option jsstring)
| Said (text : jsstring)
| Failure (m : message).

(** *** Computations: requests answered one after the other, delays, and
    exceptions *)

Definition requests (trace : list event) : nat :=
  length (List.filter (fun e => match e with Request _ _ => true | Delay _ => false end) trace).

Definition M (A : Type) : Type := (nat -> served) -> list event -> result A * list event.

#[global] Instance M_ret : MRet M := fun A a _ trace => (ok a, trace).
#[global] Instance M_bind : MBind M := fun A B f c answers trace =>
  match c answers trace with
  | (ok a, trace') => f a answers trace'
  | (throw e, trace') => (throw e, trace')
  end.

Definition lift {A} (r : result A) : M A := fun _ trace => (r, trace).

Definition raise {A} (e : exn) : M A := lift (throw e).

(** [try { c } catch (error) { h(error) }]. *)
Definition attempt {A} (c : M A) (h : exn -> M A) : M A := fun answers trace =>
  match c answers trace with
  | (ok a, trace') => (ok a, trace')
  | (throw e, trace') => h e answers trace'
  end.

(** [await client.post(...)], [await client.get(...)]: the next answer of
    the service. *)
Definition send (c : client) (r : request) : M response := fun answers trace =>
  match answers (requests trace) with
  | Answered resp => (ok resp, trace ++ [Request c r])
  | Refused why => (throw (Error [Str why]), trace ++ [Request c r])
  end.

(** [await new Promise(resolve => setTimeout(resolve, ms))]. *)
Definition sleep (ms : Q) : M unit := fun _ trace => (ok tt, trace ++ [Delay ms]).

(** [String(x)] of an argument that may be left out. *)
Definition text_of (x : option jsstring) : jsstring := default (js "undefined") x.

Definition createHttpClient (network : jsstring) (access_token : option jsstring)
  : result client :=
  url ← getNetworkUrl network;
  ok {| baseURL := url;
        authorization :=
          match access_token with
          | Some t => if nonblank t then Some (js "Bearer " ++ t) else None
          | None => None
          end |}.

(** *** Table queries *)

Definition maxPolls : nat := 10.
Definition pollInterval : Q := 2000.

(** The text of a table-query reply: putting the offset or the total into
    it converts them to text. *)
Definition formatRows (table_name : option jsstring) (result : JSON) : JS.result reply :=
  let pagination := own (js "pagination") result in
  if truthy_opt pagination then
    let offset := or_else (get_opt (js "offset") pagination) (of_nat 0) in
    let total := or_else (get_opt (js "total") pagination) (JString (js "unknown")) in
    if toPrimitive_throws offset || toPrimitive_throws total then throw TypeError
    else ok (Rows table_name result)
  else ok (Rows table_name result).

(** [Array.isArray(v)]. *)
Definition isArray (v : option JSON) : bool :=
  match v with Some (JArray _) => true | _ => false end.

(** [v !== 'empty_response_poll']. *)
Definition not_sentinel (v : option JSON) : bool :=
  match v with
  | Some (JString s) => negb (str_eqb s (js "empty_response_poll"))
  | _ => true
  end.

(** [this.parseJsonLinesResponse(response.data)]: data that is no string
    has no [trim]. *)
Definition classify_data (data : JSON) : result JSON :=
  match data with
  | JString rawText => parseJsonLinesResponse rawText
  | _ => throw TypeError
  end.

(** [payload.next_page_token = token]. *)
Definition with_token (payload : Payload) (token : option JSON) : Payload :=
  {| tableName := tableName payload;
     filters := filters payload;
     pagination := pagination payload;
     order := order payload;
     next_page_token := token |}.

(** The loop of [queryTable], [remaining] turns before [pollCount] reaches
    [maxPolls]. *)
Fixpoint queryTable_poll (c : client) (collection_slug table_name : option jsstring)
    (remaining pollCount : nat) (payload : Payload) : M reply :=
  match remaining with
  | O => raise (Error [Lit "Query timed out after "; Int (Z.of_nat maxPolls); Lit " polls"])
  | S remaining' =>
      _ ← lift (encodeURIComponent (text_of collection_slug));
      _ ← lift (encodeURIComponent (text_of table_name));
      response ← send c (FilterRows (text_of collection_slug) (text_of table_name) payload);
      result ← lift (classify_data (data_of response));
      hasData ← lift (has_property (js "data") result);
      if hasData && isArray (own (js "data") result) then
        lift (formatRows table_name result)
      else
        hasToken ← lift (has_property (js "next_page_token") result);
        if hasToken : bool then
          let payload' :=
            if not_sentinel (own (js "next_page_token") result)
            then with_token payload (own (js "next_page_token") result)
            else payload in
          _ ← (if (pollCount <? maxPolls - 1)%nat then sleep pollInterval else mret tt);
          queryTable_poll c collection_slug table_name remaining' (S pollCount) payload'
        else raise (Error [Lit "Unexpected response format: "; Keys result])
  end.

Definition queryTable (args : option Args.t) : M reply :=
  match args with
  | None => raise TypeError
  | Some a =>
      c ← lift (createHttpClient (Args.network a) (Args.access_token a));
      let payload :=
        {| tableName := Args.table_name a;
           filters := default (JObject []) (Args.filters a);
           pagination := (default (of_nat 100) (Args.limit a),
                          default (of_nat 0) (Args.offset a));
           order := if truthy_opt (Args.order_by a) then Args.order_by a else None;
           next_page_token := None |} in
      attempt
        (queryTable_poll c (Args.collection_slug a) (Args.table_name a) maxPolls 0 payload)
        (fun error => raise (Error (Lit "Failed to query table: " :: exn_message error)))
  end.

(** *** SQL search *)

(** The result of a search request or of a poll: the data as it is under a
    JSON content type, the text parsed otherwise. *)
Definition decode (r : response) : JS.result JSON :=
  if isJson r then ok (data_of r)
  else
    match r with
    | Text _ text =>
        match JSON_parse text with
        | Some v => ok v
        | None =>
            throw (Error [Lit "Invalid JSON response: "; Str (substring0 200 text); Lit "..."])
        end
    | Json d => ok d
    end.

(** [result.errors && result.errors.length > 0], and then the error that
    is thrown. *)
Definition check_errors (result : JSON) : JS.result unit :=
  errors ← get (js "errors") result;
  many ← (if truthy_opt errors then positive (get_opt (js "length") errors) else ok false);
  if many : bool then
    match get_opt (js "0") errors with
    | None | Some JNull => throw TypeError
    | Some first =>
        let errorDetails := or_else (own (js "details") first) (JString (js "Unknown error")) in
        if toPrimitive_throws errorDetails then throw TypeError
        else throw (Error [Lit "SQL query error: "; Val errorDetails])
    end
  else ok tt.

(** [result.data && result.data.length > 0]. *)
Definition has_rows (result : JSON) : JS.result bool :=
  data ← get (js "data") result;
  if truthy_opt data then positive (get_opt (js "length") data) else ok false.

(** [result.pagination?.next_page_url]. *)
Definition next_page_url (result : JSON) : JS.result (option JSON) :=
  pagination ← get (js "pagination") result;
  ok (get_opt (js "next_page_url") pagination).

(** [v.toLocaleString()] throws: [v] is missing, or the method ends in a
    property of a JSON text, which cannot be called. *)
Fixpoint toLocaleString_throws (v : JSON) : bool :=
  match v with
  | JObject o =>
      bool_decide (is_Some (assoc (js "toLocaleString") o))
      || bool_decide (is_Some (assoc (js "toString") o))
  | JArray l => existsb toLocaleString_throws l
  | _ => false
  end.

(** A value that is neither [null] nor of type [object]. *)
Definition scalar (v : JSON) : bool :=
  match v with JNull | JArray _ | JObject _ => false | _ => true end.

(** [String(row[k] || '')] throws for some key. *)
Definition row_throws (keys : list jsstring) (row : JSON) : bool :=
  match row with
  | JNull => negb (is_empty keys)
  | _ => existsb (fun k => toPrimitive_throws (or_else (own k row) (JString []))) keys
  end.

(** [formatSqlResults]: the reply, or the TypeError that wording it ran
    into. *)
Definition formatSqlResults (result : JSON) (sql : option jsstring) : JS.result reply :=
  data ← get (js "data") result;
  match data with
  | None | Some JNull => throw TypeError
  | Some data =>
      let rowCount := own (js "length") data in
      pagination ← get (js "pagination") result;
      let hasMore := truthy_opt (get_opt (js "next_page_url") pagination) in
      let totalCount := or_else (get_opt (js "total") pagination) (JString (js "unknown")) in
      match rowCount with
      | None | Some JNull => throw TypeError
      | Some rowCount =>
          if toLocaleString_throws rowCount then throw TypeError
          else if hasMore && (toPrimitive_throws rowCount || toPrimitive_throws totalCount)
          then throw TypeError
          else
            match data with
            | JArray rows =>
                let previewData := take 5 rows in
                match previewData with
                | [] => ok (SqlResults result sql)
                | JNull :: _ => throw TypeError
                | firstRow :: _ =>
                    let keys := own_keys firstRow in
                    if (length keys <=? 8)%nat
                       && forallb (fun k => match own k firstRow with
                                            | Some x => scalar x
                                            | None => true
                                            end) keys
                    then
                      if existsb (row_throws keys) previewData then throw TypeError
                      else ok (SqlResults result sql)
                    else ok (SqlResults result sql)
                end
            | JString _ => ok (SqlResults result sql)
            | _ => throw TypeError
            end
      end
  end.

(** What one turn of the polling loop ends in. *)
Inductive turn :=
| Return (r : reply)
| Continue (nextPageUrl : JSON).

(** The body of the [try] in [pollSqlResults]. *)
Definition poll_once (c : client) (nextPageUrl : JSON) (sql : option jsstring) : M turn :=
  pollResponse ← send c (Page nextPageUrl);
  pollResult ← lift (decode pollResponse);
  _ ← lift (check_errors pollResult);
  rows ← lift (has_rows pollResult);
  if rows : bool then
    r ← lift (formatSqlResults pollResult sql); mret (Return r)
  else
    data ← lift (get (js "data") pollResult);
    next ← lift (next_page_url pollResult);
    if truthy_opt data && is_number_zero (get_opt (js "length") data)
       && negb (truthy_opt next)
    then mret (Return (NoResults sql))
    else
      match next with
      | Some url => if truthy url then mret (Continue url) else mret (Return (NoResults sql))
      | None => mret (Return (NoResults sql))
      end.

(** The loop of [pollSqlResults], [remaining] turns before [pollCount]
    reaches [max_polls]. *)
Fixpoint pollSqlResults_loop (c : client) (sql : option jsstring) (max_polls : Z)
    (poll_interval : Q) (remaining pollCount : nat) (nextPageUrl : JSON) : M reply :=
  match remaining with
  | O =>
      raise (Error [Lit "SQL query timed out after "; Int max_polls; Lit " polls (";
                    Num (inject_Z max_polls * poll_interval); Lit "s)"])
  | S remaining' =>
      _ ← sleep (poll_interval * 1000);
      t ← attempt (poll_once c nextPageUrl sql)
            (fun pollError =>
               if (Z.of_nat pollCount <? max_polls - 1)%Z
               then mret (Continue nextPageUrl)
               else raise (Error (Lit "Polling failed: " :: exn_message pollError)));
      match t with
      | Return r => mret r
      | Continue url =>
          pollSqlResults_loop c sql max_polls poll_interval remaining' (S pollCount) url
      end
  end.

Definition pollSqlResults (c : client) (nextPageUrl : JSON) (sql : option jsstring)
    (max_polls : Z) (poll_interval : Q) : M reply :=
  pollSqlResults_loop c sql max_polls poll_interval (Z.to_nat max_polls) 0 nextPageUrl.

Definition sqlSearch (args : option Args.t) : M reply :=
  match args with
  | None => raise TypeError
  | Some a =>
      let sql := Args.sql a in
      let max_polls := default 10%Z (Args.max_polls a) in
      let poll_interval := default 2%Q (Args.poll_interval a) in
      c ← lift (createHttpClient (Args.network a) (Args.access_token a));
      attempt
        (_ ← lift (encodeURIComponent (text_of (Args.collection_slug a)));
         response ← send c (Search (text_of (Args.collection_slug a)) sql);
         result ← lift (decode response);
         _ ← lift (check_errors result);
         rows ← lift (has_rows result);
         if rows : bool then lift (formatSqlResults result sql)
         else
           nextPageUrl ← lift (next_page_url result);
           match nextPageUrl with
           | Some url =>
               if truthy url then pollSqlResults c url sql max_polls poll_interval
               else mret (NoResults sql)
           | None => mret (NoResults sql)
           end)
        (fun error => raise (Error (Lit "Failed to execute SQL query: " :: exn_message error)))
  end.

(** *** Readings of a trace and of an answer *)

Definition delays (trace : list event) : list Q :=
  omap (fun e => match e with Delay ms => Some ms | Request _ _ => None end) trace.






(** The arguments of an example call. *)
Definition example_args : Args.t :=
  {| Args.network := js "viral";
     Args.access_token := None;
     Args.collection_slug := Some (js "virusseq");
     Args.table_name := Some (js "variants");
     Args.filters := None;
     Args.limit := None;
     Args.offset := None;
     Args.order_by := None;
     Args.sql := Some (js "SELECT 1");
     Args.max_polls := Some 2%Z;
     Args.poll_interval := None |}.

Definition example_client : client :=
  {| baseURL := js "https://viral.ai"; authorization := None |}.

(** Unfolding the plumbing of a computation. *)
Ltac run :=
  unfold mbind, M_bind, mret, M_ret, lift, raise, attempt, send, sleep;
  cbn beta iota.

End Engine.

(** ** The tool dispatcher *)

Module Dispatch.
Import JS Engine.

Section Handlers.

(** The four tools that issue one request and word its answer; what they do
    is left open here. *)
Variables listCollections listTables getSchemaFields countRows : option Args.t -> M reply.

(** The [switch] over the tool's name. *)
Definition dispatch (name : jsstring) (args : option Args.t) : M reply :=
  if str_eqb name (js "list_collections") then listCollections args
  else if str_eqb name (js "list_tables") then listTables args
  else if str_eqb name (js "get_schema_fields") then getSchemaFields args
  else if str_eqb name (js "query_table") then queryTable args
  else if str_eqb name (js "count_rows") then countRows args
  else if str_eqb name (js "sql_search") then sqlSearch args
  else raise (Error [Lit "Unknown tool: "; Str name]).

(** The handler of [tools/call]: what it returns is the protocol's reply,
    what it throws would be the protocol's error. *)
Definition callTool (name : jsstring) (args : option Args.t) : M reply :=
  attempt (dispatch name args)
          (fun error => mret (Failure (Lit "Error: " :: exn_message error))).

End Handlers.

Definition toolNames : list jsstring :=
  map js [ "list_collections"; "list_tables"; "get_schema_fields";
           "query_table"; "count_rows"; "sql_search" ]%string.

End Dispatch.

(** ** The session bridge *)

Module Bridge.
Import JS.

(** *** [data.toString()]: the bytes of a chunk decoded as UTF-8, every
    malformed or cut sequence replaced by U+FFFD *)

Definition replacement : N := 65533.

(** What a byte starts when no sequence is pending: a character of its
    own, or a sequence of [n] more bytes, the first of them within
    [lower..upper]. *)
Inductive lead :=
| Single (c : N)
| Pending (n : nat) (cp lower upper : N).

Definition leading (b : N) : lead :=
  if (b <=? 127)%N then Single b
  else if ((194 <=? b) && (b <=? 223))%N then Pending 1 (b - 192) 128 191
  else if ((224 <=? b) && (b <=? 239))%N then
    Pending 2 (b - 224) (if (b =? 224)%N then 160 else 128)
              (if (b =? 237)%N then 159 else 191)
  else if ((240 <=? b) && (b <=? 244))%N then
    Pending 3 (b - 240) (if (b =? 240)%N then 144 else 128)
              (if (b =? 244)%N then 143 else 191)
  else Single replacement.

(** The code points of a byte sequence. *)
Fixpoint codePoints (bytes : list N) (pending : option (nat * N * N * N)) : list N :=
  let start b rest :=
    match leading b with
    | Single c => c :: rest None
    | Pending n cp lower upper => rest (Some (n, cp, lower, upper))
    end in
  match bytes with
  | [] => match pending with Some _ => [replacement] | None => [] end
  | b :: r =>
      match pending with
      | Some (n, cp, lower, upper) =>
          if ((lower <=? b) && (b <=? upper))%N then
            let cp' := (cp * 64 + (b - 128))%N in
            match n with
            | 1%nat | O => cp' :: codePoints r None
            | S n' => codePoints r (Some (n', cp', 128%N, 191%N))
            end
          else replacement :: start b (codePoints r)
      | None => start b (codePoints r)
      end
  end.

(** The code units of a code point. *)
Definition codeUnits (cp : N) : jsstring :=
  if (cp <? 65536)%N then [cp]
  else [(55296 + (cp - 65536) / 1024)%N; (56320 + (cp - 65536) mod 1024)%N].

(** [data.toString()]. *)
Definition toString (data : list byte) : jsstring :=
  flat_map codeUnits (codePoints (map Byte.to_N data) None).

(** *** Sessions *)

(** A session object, with what stands for its process: the messages
    written to the worker's input, one line each, and whether it was
    killed. *)
Record session := {
  id : jsstring;
  buffer : jsstring;
  responses : list JSON;
  stdin : list JSON;
  killed : bool }.

(** The [Map] of active sessions holds references to session objects;
    [objects] is the store they point into, [spawned] the next free
    reference. *)
Record state := {
  activeSessions : gmap jsstring nat;
  objects : nat -> session;
  spawned : nat }.

Definition store (r : nat) (s : session) (objects : nat -> session) : nat -> session :=
  fun r' => if (r' =? r)%nat then s else objects r'.

(** The listener of the worker's output (the two places that create a
    session attach the same one). *)
Definition on_data (data : list byte) (s : session) : session :=
  let buffer := buffer s ++ toString data in
  let lines := split LF buffer in
  {| id := id s;
     (* lines.pop() || '' *)
     buffer := default [] (last lines);
     responses :=
       responses s
       ++ omap (fun line => if nonblank (trim line) then JSON_parse line else None)
               (removelast lines);
     stdin := stdin s;
     killed := killed s |}.

(** What the worker of a session does while a request waits. *)
Inductive event :=
| Data (r : nat) (data : list byte)
| Exit (r : nat).

Definition handle (σ : state) (e : event) : state :=
  match e with
  | Data r data =>
      {| activeSessions := activeSessions σ;
         objects := store r (on_data data (objects σ r)) (objects σ);
         spawned := spawned σ |}
  | Exit r =>
      {| activeSessions := delete (id (objects σ r)) (activeSessions σ);
         objects := objects σ;
         spawned := spawned σ |}
  end.

(** What the bridge answers. *)
Inductive reply :=
| SessionId (sessionId : jsstring)
| Message (m : JSON)
| Closed
| Sessions (ids : list jsstring)
| Failed (status : nat) (error : string).

(** POST /session, [sessionId] being the identifier just drawn. *)
Definition Open (sessionId : jsstring) (σ : state) : reply * state :=
  let session :=
    {| id := sessionId; buffer := []; responses := []; stdin := []; killed := false |} in
  (SessionId sessionId,
   {| activeSessions := <[sessionId := spawned σ]> (activeSessions σ);
      objects := store (spawned σ) session (objects σ);
      spawned := S (spawned σ) |}).

(** One sleep of a waiting request: how much longer than 100 ms it took,
    and what the workers did meanwhile. *)
Record tick := { slack : N; events : list event }.

Definition timeout : N := 30000.

(** The wait of POST /session/:sessionId/message for the session object
    [r], [elapsed] ms after it began; [fuel] bounds the number of sleeps. *)
Fixpoint wait (schedule : nat -> tick) (r : nat) (fuel round : nat) (elapsed : N)
    (σ : state) : option (reply * state) :=
  match responses (objects σ r) with
  | first :: _ => Some (Message first, σ)
  | [] =>
      if (timeout <? elapsed)%N then Some (Failed 504 "Request timeout", σ)
      else
        match fuel with
        | O => None
        | S fuel' =>
            let t := schedule round in
            wait schedule r fuel' (S round) (elapsed + (100 + slack t))%N
                 (foldl handle σ (events t))
        end
  end.

(** The state in which a message sent to the session object [r] starts to
    wait: the queue cleared, the message written. *)
Definition sent (r : nat) (m : JSON) (σ : state) : state :=
  let session := objects σ r in
  {| activeSessions := activeSessions σ;
     objects :=
       store r {| id := id session; buffer := buffer session; responses := [];
                  stdin := stdin session ++ [m]; killed := killed session |}
             (objects σ);
     spawned := spawned σ |}.

(** POST /session/:sessionId/message. *)
Definition Send (schedule : nat -> tick) (fuel : nat) (sessionId : jsstring)
    (message : option JSON) (σ : state) : option (reply * state) :=
  match activeSessions σ !! sessionId with
  | None => Some (Failed 404 "Session not found", σ)
  | Some r =>
      match message with
      | Some m =>
          if truthy m then
            (* session.responses = []; session.process.stdin.write(...) *)
            wait schedule r fuel 0 0 (sent r m σ)
          else Some (Failed 400 "Message is required", σ)
      | None => Some (Failed 400 "Message is required", σ)
      end
  end.

(** DELETE /session/:sessionId. *)
Definition Close (sessionId : jsstring) (σ : state) : reply * state :=
  match activeSessions σ !! sessionId with
  | None => (Failed 404 "Session not found", σ)
  | Some r =>
      let session := objects σ r in
      (Closed,
       {| activeSessions := delete sessionId (activeSessions σ);
          objects :=
            store r {| id := id session; buffer := buffer session;
                       responses := responses session; stdin := stdin session;
                       killed := true |} (objects σ);
          spawned := spawned σ |})
  end.

(** GET /sessions; the order of the listing is left out. *)
Definition List (σ : state) : reply :=
  Sessions (map fst (map_to_list (activeSessions σ))).

(** *** Readings of a schedule *)

(** The state after the [k] sleeps that follow sleep number [from], and
    the time they took. *)
Fixpoint after (schedule : nat -> tick) (from k : nat) (σ : state) : state :=
  match k with
  | O => σ
  | S k' => after schedule (S from) k' (foldl handle σ (events (schedule from)))
  end.

Fixpoint elapsed_after (schedule : nat -> tick) (from k : nat) : N :=
  match k with
  | O => 0
  | S k' => (100 + slack (schedule from) + elapsed_after schedule (S from) k')%N
  end.

(** The worker's output taken in chunk by chunk. *)
Definition feed (chunks : list (list byte)) (s : session) : session :=
  foldl (fun s data => on_data data s) s chunks.

(** The unterminated tail of a text, and its complete lines. *)
Definition tail_of (text : jsstring) : jsstring := default [] (last (split LF text)).
Definition complete_lines (text : jsstring) : list jsstring := removelast (split LF text).

Definition empty_state : state :=
  {| activeSessions := ∅;
     objects := fun _ => {| id := []; buffer := []; responses := [];
                            stdin := []; killed := false |};
     spawned := 0 |}.

End Bridge.

(** ** The other endpoints of the bridge *)

Module Gateway.
Import JS Bridge.

(** GET /: the number of active sessions that the health check reports,
    [activeSessions.size]. *)
Definition Health (σ : state) : nat := size (activeSessions σ).

(** POST /v1/omics-ai-mcp/messages: the session named by the query is the
    one in the table or, when there is none, one made on the spot, with a
    worker of its own; the body of the request is written to the worker as
    it is, and the wait is that of POST /session/:sessionId/message. A query
    that repeats the parameter is not modelled. *)
Definition Messages (schedule : nat -> tick) (fuel : nat) (sessionId : option jsstring)
    (message : JSON) (σ : state) : option (reply * state) :=
  match sessionId with
  | Some sessionId =>
      if nonblank sessionId then
        let '(r, σ) :=
          match activeSessions σ !! sessionId with
          | Some r => (r, σ)
          | None =>
              let session :=
                {| id := sessionId; buffer := []; responses := []; stdin := [];
                   killed := false |} in
              (spawned σ,
               {| activeSessions := <[sessionId := spawned σ]> (activeSessions σ);
                  objects := store (spawned σ) session (objects σ);
                  spawned := S (spawned σ) |})
          end in
        (* session.responses = []; session.process.stdin.write(...) *)
        wait schedule r fuel 0 0 (sent r message σ)
      else Some (Failed 400 "sessionId query parameter is required", σ)
  | None => Some (Failed 400 "sessionId query parameter is required", σ)
  end.

(** [session.process.kill()]. *)
Definition kill (s : session) : session :=
  {| id := id s; buffer := buffer s; responses := responses s; stdin := stdin s;
     killed := true |}.

(** The handler of SIGTERM, up to the exit of the bridge itself: the worker
    of every session of the table is killed. *)
Definition ShutdownAll (σ : state) : state :=
  {| activeSessions := activeSessions σ;
     objects :=
       foldr (fun entry objects => store entry.2 (kill (objects entry.2)) objects)
             (objects σ) (map_to_list (activeSessions σ));
     spawned := spawned σ |}.

(** *** Readings of a state and of a chunk *)

(** Every entry of the table points to a session object made before, which
    carries the entry's key as its [id]. *)
Definition consistent (σ : state) : Prop :=
  forall sessionId r,
    activeSessions σ !! sessionId = Some r ->
    id (objects σ r) = sessionId /\ (r < spawned σ)%nat.

(** The sequence that the decoder is in the middle of after [bytes]: what
    [codePoints] carries from one byte to the next. *)
Fixpoint carried (bytes : list N) (pending : option (nat * N * N * N))
  : option (nat * N * N * N) :=
  let start b :=
    match leading b with
    | Single _ => None
    | Pending n cp lower upper => Some (n, cp, lower, upper)
    end in
  match bytes with
  | [] => pending
  | b :: r =>
      match pending with
      | Some (n, cp, lower, upper) =>
          if ((lower <=? b) && (b <=? upper))%N then
            let cp' := (cp * 64 + (b - 128))%N in
            match n with
            | 1%nat | O => carried r None
            | S n' => carried r (Some (n', cp', 128%N, 191%N))
            end
          else carried r (start b)
      | None => carried r (start b)
      end
  end.

(** A chunk that ends between two characters, not within one. *)
Definition whole (data : list byte) : bool :=
  match carried (map Byte.to_N data) None with None => true | Some _ => false end.

(** The events of a tick that come from the worker of the session object
    [r]. *)
Definition of_worker (r : nat) (e : event) : bool :=
  match e with Data r' _ | Exit r' => (r' =? r)%nat end.

Definition only (r : nat) (schedule : nat -> tick) : nat -> tick :=
  fun i => {| slack := slack (schedule i);
              events := List.filter (of_worker r) (events (schedule i)) |}.

(** The chunks that the worker of the session object [r] writes among the
    events [es], and during the [k] sleeps that follow sleep number
    [from]. *)
Definition chunks_of (r : nat) (es : list event) : list (list byte) :=
  omap (fun e => match e with
                 | Data r' data => if (r' =? r)%nat then Some data else None
                 | Exit _ => None
                 end) es.

Fixpoint heard (r : nat) (schedule : nat -> tick) (from k : nat) : list (list byte) :=
  match k with
  | O => []
  | S k' => chunks_of r (events (schedule from)) ++ heard r schedule (S from) k'
  end.

End Gateway.

(** ** The tools of one request *)

Module Tools.
Import JS Classifier Network Engine.

(** *** The text of [encodeURIComponent] *)

(** The characters that stand for themselves: letters, digits and
    [- _ . ! ~ * ' ( )]. *)
Definition unreserved (c : N) : bool :=
  ((65 <=? c) && (c <=? 90) || (97 <=? c) && (c <=? 122) || (48 <=? c) && (c <=? 57)
   || (c =? 45) || (c =? 95) || (c =? 46) || (c =? 33) || (c =? 126) || (c =? 42)
   || (c =? 39) || (c =? 40) || (c =? 41))%N.

Definition hexChar (d : N) : N := if (d <? 10)%N then (48 + d)%N else (55 + d)%N.

(** A byte as [%XX]. *)
Definition percent (b : N) : jsstring := [37; hexChar (b / 16); hexChar (b mod 16)]%N.

(** The bytes of a code point in UTF-8. *)
Definition utf8 (cp : N) : list N :=
  if (cp <? 128)%N then [cp]
  else if (cp <? 2048)%N then [192 + cp / 64; 128 + cp mod 64]%N
  else if (cp <? 65536)%N then
    [224 + cp / 4096; 128 + (cp / 64) mod 64; 128 + cp mod 64]%N
  else [240 + cp / 262144; 128 + (cp / 4096) mod 64; 128 + (cp / 64) mod 64;
        128 + cp mod 64]%N.

(** What [encodeURIComponent(s)] returns when it does not throw. *)
Fixpoint encoded (s : jsstring) : jsstring :=
  match s with
  | [] => []
  | c :: r =>
      if unreserved c then c :: encoded r
      else if ((55296 <=? c) && (c <=? 56319))%N then
        match r with
        | d :: r' =>
            flat_map percent (utf8 (65536 + (c - 55296) * 1024 + (d - 56320)))
            ++ encoded r'
        | [] => []
        end
      else flat_map percent (utf8 c) ++ encoded r
  end.

(** *** What the tools hand back

    The text of the one content item, kept by the template that words it
    and the values put into it. *)
Inductive listing :=
| Collections (network : jsstring) (collections : list JSON)
| Tables (collection_slug : option jsstring) (tables : list JSON)
| Schema (table_name : option jsstring) (dataModel : JSON)
| Count (count : JSON) (table_name : option jsstring) (filtered : bool).

(** Putting a property into a template converts it to text, which throws
    where ToPrimitive does; a property that is missing reads [undefined]. *)
Definition text_throws (v : option JSON) : bool :=
  match v with Some v => toPrimitive_throws v | None => false end.

(** [a || b] of two properties. *)
Definition or_opt (a b : option JSON) : option JSON :=
  match a with Some v => if truthy v then a else b | None => b end.

(** Wording the collection [c] throws: it is [null], or one of the
    properties put into the text does not convert. *)
Definition collection_throws (c : JSON) : bool :=
  match c with
  | JNull => true
  | _ =>
      text_throws (own (js "name") c)
      || text_throws (own (js "slugName") c)
      || toPrimitive_throws
           (or_else (own (js "description") c) (JString (js "No description")))
  end.

Definition listCollections (args : option Args.t) : M listing :=
  match args with
  | None => raise TypeError
  | Some a =>
      c ← lift (createHttpClient (Args.network a) (Args.access_token a));
      attempt
        (response ← send c (Another (js "/api/collections"));
         match data_of response with
         | JArray collections =>
             if existsb collection_throws collections then raise TypeError
             else mret (Collections (Args.network a) collections)
         | _ => raise (Error [Lit "Expected list of collections but got something else"])
         end)
        (fun error =>
           raise (Error (Lit "Failed to list collections: " :: exn_message error)))
  end.

(** Wording the table [t] throws. *)
Definition table_throws (t : JSON) : bool :=
  match t with
  | JNull => true
  | _ =>
      text_throws (own (js "display_name") t)
      || text_throws (or_opt (own (js "qualified_table_name") t) (own (js "name") t))
      || match own (js "size") t with
         | Some size => truthy size && toLocaleString_throws size
         | None => false
         end
  end.

Definition listTables (args : option Args.t) : M listing :=
  match args with
  | None => raise TypeError
  | Some a =>
      c ← lift (createHttpClient (Args.network a) (Args.access_token a));
      attempt
        (_ ← lift (encodeURIComponent (text_of (Args.collection_slug a)));
         response ← send c (Another (js "/api/collections/"
                                     ++ encoded (text_of (Args.collection_slug a))
                                     ++ js "/tables"));
         match data_of response with
         | JArray tables =>
             if existsb table_throws tables then raise TypeError
             else mret (Tables (Args.collection_slug a) tables)
         | _ => raise (Error [Lit "Expected list of tables but got something else"])
         end)
        (fun error => raise (Error (Lit "Failed to list tables: " :: exn_message error)))
  end.

(** The text of [v] is [array]: what [fieldType === 'array'] asks once an
    array of types was joined. *)
Fixpoint reads_array (v : JSON) : bool :=
  match v with
  | JString s => str_eqb s (js "array")
  | JArray [x] => reads_array x
  | _ => false
  end.

(** [Object.entries(v)], the values only, for [v] other than [null]. *)
Definition entry_values (v : JSON) : list JSON :=
  match v with
  | JObject o => map snd o
  | JArray l => l
  | JString s => map (fun c => JString [c]) s
  | _ => []
  end.

(** Reading the field [fieldSpec] and wording it throws. *)
Definition field_throws (fieldSpec : JSON) : bool :=
  match fieldSpec with
  | JNull => true
  | _ =>
      let fieldType := or_else (own (js "type") fieldSpec) (JString []) in
      toPrimitive_throws fieldType
      || reads_array fieldType
         && match own (js "items") fieldSpec with
            | Some items =>
                truthy items
                && toPrimitive_throws (or_else (own (js "type") items) (JString []))
            | None => false
            end
      || toPrimitive_throws (or_else (own (js "sqlType") fieldSpec) (JString []))
  end.

Definition getSchemaFields (args : option Args.t) : M listing :=
  match args with
  | None => raise TypeError
  | Some a =>
      c ← lift (createHttpClient (Args.network a) (Args.access_token a));
      attempt
        (_ ← lift (encodeURIComponent (text_of (Args.collection_slug a)));
         _ ← lift (encodeURIComponent (text_of (Args.table_name a)));
         response ← send c (Another (js "/api/collection/"
                                     ++ encoded (text_of (Args.collection_slug a))
                                     ++ js "/data-connect/table/"
                                     ++ encoded (text_of (Args.table_name a))
                                     ++ js "/info"));
         let schema := data_of response in
         (* schema?.data_model?.properties || {} *)
         let dataModel :=
           or_else (get_opt (js "properties") (get_opt (js "data_model") (Some schema)))
                   (JObject []) in
         if (keys_length dataModel =? 0)%nat then
           raise (Error [Lit "No schema (data_model.properties) found in response"])
         else if existsb field_throws (entry_values dataModel) then raise TypeError
         else mret (Schema (Args.table_name a) dataModel))
        (fun error => raise (Error (Lit "Failed to get schema: " :: exn_message error)))
  end.

(** [countRows]; the body [{ filters }] of its request is left out of the
    event. *)
Definition countRows (args : option Args.t) : M listing :=
  match args with
  | None => raise TypeError
  | Some a =>
      let filters := default (JObject []) (Args.filters a) in
      c ← lift (createHttpClient (Args.network a) (Args.access_token a));
      attempt
        (_ ← lift (encodeURIComponent (text_of (Args.collection_slug a)));
         _ ← lift (encodeURIComponent (text_of (Args.table_name a)));
         response ← send c (Another (js "/api/collections/"
                                     ++ encoded (text_of (Args.collection_slug a))
                                     ++ js "/tables/"
                                     ++ encoded (text_of (Args.table_name a))
                                     ++ js "/filter/count"));
         result ← lift (classify_data (data_of response));
         let count := or_else (own (js "count") result) (of_nat 0) in
         if toLocaleString_throws count then raise TypeError
         else
           match filters with
           | JNull => raise TypeError
           | _ => mret (Count count (Args.table_name a) (0 <? keys_length filters)%nat)
           end)
        (fun error => raise (Error (Lit "Failed to count rows: " :: exn_message error)))
  end.

(** *** Readings of a trace *)


(** [k] times the two beats [a], [b]. *)
Definition beats (a b : bool) (k : nat) : list bool := concat (replicate k [a; b]).

(** *** Readings of an answer *)

(** A row of plain values: an object whose values are numbers, strings,
    truth values or [null]. *)
Definition flat (row : JSON) : bool :=
  match row with
  | JObject members => forallb (fun member => negb (is_object member.2)) members
  | _ => false
  end.

End Tools.

(* ===================================================================== *)
(** * Part II: lemmas and theorems *)
(* ===================================================================== *)

(** ** Strings: trimming and splitting *)

Module JSFacts.
Import JS.

Lemma trimStart_white s : Forall (fun c => isWhite c = true) s -> trimStart s = [].
Proof.
  induction 1 as [|c s Hc _ IH]; simpl; [done|]. by rewrite Hc.
Qed.

Lemma trimStart_nil_white s : trimStart s = [] -> Forall (fun c => isWhite c = true) s.
Proof.
  induction s as [|c s IH]; simpl; [constructor|].
  destruct (isWhite c) eqn:Hc; [|done]. intros H. constructor; auto.
Qed.

(** A string is white space followed by what [trimStart] keeps. *)
Lemma trimStart_decompose s :
  exists w, Forall (fun c => isWhite c = true) w /\ s = w ++ trimStart s.
Proof.
  induction s as [|c s (w & Hw & IH)]; simpl.
  - by exists [].
  - destruct (isWhite c) eqn:Hc.
    + exists (c :: w). split; [by constructor|]. simpl. by rewrite <- IH.
    + by exists [].
Qed.

(** What [trimStart] keeps does not start with white space. *)
Lemma trimStart_head s c r : trimStart s = c :: r -> isWhite c = false.
Proof.
  induction s as [|d s IH]; simpl; [done|].
  destruct (isWhite d) eqn:Hd; [done|]. by intros [= <- _].
Qed.

Lemma trimStart_idem s : trimStart (trimStart s) = trimStart s.
Proof.
  destruct (trimStart s) as [|c r] eqn:E; [done|].
  simpl. by rewrite (trimStart_head _ _ _ E).
Qed.

Lemma trimEnd_decompose s :
  exists w, Forall (fun c => isWhite c = true) w /\ s = trimEnd s ++ w.
Proof.
  destruct (trimStart_decompose (rev s)) as (w & Hw & E).
  exists (rev w). split.
  - by apply Forall_rev.
  - unfold trimEnd. rewrite <- rev_app_distr, <- E. by rewrite rev_involutive.
Qed.

Lemma trimEnd_snoc_white s c : isWhite c = true -> trimEnd (s ++ [c]) = trimEnd s.
Proof.
  intros Hc. unfold trimEnd. rewrite rev_app_distr. simpl. by rewrite Hc.
Qed.

Lemma trimEnd_snoc_black s c : isWhite c = false -> trimEnd (s ++ [c]) = s ++ [c].
Proof.
  intros Hc. unfold trimEnd. rewrite rev_app_distr. simpl. rewrite Hc.
  simpl. by rewrite rev_involutive.
Qed.

Lemma trim_cons_white c s : isWhite c = true -> trim (c :: s) = trim s.
Proof. intros Hc. unfold trim. simpl. by rewrite Hc. Qed.

Lemma trimStart_snoc_white s c :
  isWhite c = true ->
  trimStart (s ++ [c]) = match trimStart s with [] => [] | t => t ++ [c] end.
Proof.
  intros Hc. induction s as [|d s IH]; simpl.
  - by rewrite Hc.
  - destruct (isWhite d); [done|]. done.
Qed.

Lemma trim_snoc_white s c : isWhite c = true -> trim (s ++ [c]) = trim s.
Proof.
  intros Hc. unfold trim. rewrite trimStart_snoc_white by done.
  destruct (trimStart s) as [|d t]; [done|].
  by rewrite (trimEnd_snoc_white (d :: t)).
Qed.

Lemma trim_nil_white s : trim s = [] -> Forall (fun c => isWhite c = true) s.
Proof.
  unfold trim, trimEnd. intros H.
  apply (f_equal (@rev N)) in H. rewrite rev_involutive in H. simpl in H.
  apply trimStart_nil_white, Forall_rev in H. rewrite rev_involutive in H.
  destruct (trimStart s) as [|c r] eqn:E.
  - by apply trimStart_nil_white.
  - apply trimStart_head in E. apply Forall_cons in H as [H _]. congruence.
Qed.

Lemma trim_white s : Forall (fun c => isWhite c = true) s -> trim s = [].
Proof. intros H. unfold trim. by rewrite trimStart_white. Qed.

Lemma startsWith_app s p : startsWith s p = true -> exists t, s = p ++ t.
Proof.
  revert s. induction p as [|c p IH]; intros s; simpl.
  - by exists s.
  - destruct s as [|d s]; [done|].
    intros [->%N.eqb_eq (t & ->)%IH]%andb_true_iff. by exists t.
Qed.

Lemma startsWith_prefix p t : startsWith (p ++ t) p = true.
Proof. induction p as [|c p IH]; simpl; [done|]. by rewrite N.eqb_refl. Qed.

Lemma str_eqb_eq a b : str_eqb a b = true <-> a = b.
Proof.
  revert b. induction a as [|x a IH]; intros [|y b]; simpl; try (split; done).
  rewrite andb_true_iff, N.eqb_eq, IH. split; [by intros [-> ->]|by intros [= -> ->]].
Qed.

Lemma split_not_nil sep s : split sep s <> [].
Proof. destruct s as [|c r]; simpl; [done|]. by repeat case_match. Qed.

(** Splitting a concatenation: the last piece of the left part and the
    first piece of the right part are one piece. *)
Lemma split_app sep a b : split sep (a ++ b) = glue (split sep a) (split sep b).
Proof.
  induction a as [|c a IH]; simpl.
  - by destruct (split sep b) eqn:E; [destruct (split_not_nil _ _ E)|].
  - destruct (c =? sep)%N.
    + rewrite IH. by destruct (split sep a) eqn:E; [destruct (split_not_nil _ _ E)|].
    + rewrite IH. destruct (split sep a) as [|l [|l' ls]] eqn:E;
        [destruct (split_not_nil _ _ E)| |]; simpl.
      * by destruct (split sep b) eqn:E'; [destruct (split_not_nil _ _ E')|].
      * done.
Qed.

(** ** The parser's fuel

    No function of the parser leaves more than it was given, and one that
    reads a value leaves less. *)

Lemma skipWhite_length s : length (skipWhite s) <= length s.
Proof. induction s as [|c s IH]; simpl; [done|]. destruct (isJsonWhite c); simpl; lia. Qed.

Lemma parseString_length s : forall acc str r,
  parseString s acc = Some (str, r) -> length r < length s.
Proof.
  induction s as [s IH] using (induction_ltof1 _ (@length N)). unfold ltof in IH.
  intros acc str r. destruct s as [|c s]; [done|]. cbn [parseString].
  destruct (c =? 34)%N; [intros [= _ <-]; simpl; lia|].
  destruct (c =? 92)%N.
  - destruct s as [|e r1]; [done|].
    destruct (e =? 117)%N.
    + destruct r1 as [|h1 [|h2 [|h3 [|h4 r2]]]]; try done.
      destruct (hex4 h1 h2 h3 h4); [|done].
      intros H%IH; simpl in *; lia.
    + destruct (escape e); [|done]. intros H%IH; simpl in *; lia.
  - destruct (c <? 32)%N; [done|]. intros H%IH; simpl in *; lia.
Qed.

Lemma digits_length s : forall acc n x k r,
  digits s acc n = (x, k, r) -> length r + k = length s + n.
Proof.
  induction s as [|c s IH]; intros acc n x k r; simpl.
  - intros [= _ <- <-]. simpl. lia.
  - destruct (digit c); [|intros [= _ <- <-]; simpl; lia].
    intros H%IH. lia.
Qed.

Lemma parseExponent_length s x r : parseExponent s = Some (x, r) -> length r <= length s.
Proof.
  unfold parseExponent. destruct s as [|c s]; [by intros [= _ <-]|].
  destruct (_ || _); [|by intros [= _ <-]].
  destruct (match s with [] => _ | _ => _ end) as [neg r1] eqn:E.
  assert (length r1 <= length s) as Hr1.
  { destruct s as [|sgn r']; [by injection E as _ <-|].
    destruct (sgn =? 45)%N; [injection E as _ <-; simpl; lia|].
    destruct (sgn =? 43)%N; injection E as _ <-; simpl; lia. }
  destruct (digits r1 0 0) as [[y k] r2] eqn:D. apply digits_length in D.
  destruct k; [done|]. intros [= _ <-]. simpl. lia.
Qed.

Lemma parseFraction_length i s m e r : parseFraction i s = Some (m, e, r) -> length r <= length s.
Proof.
  unfold parseFraction. destruct s as [|c s]; [by intros [= _ _ <-]|].
  destruct (c =? 46)%N.
  - destruct (digits s i 0) as [[y k] r1] eqn:D. apply digits_length in D.
    destruct k; [done|]. destruct (parseExponent r1) as [[x r2]|] eqn:X; [|done].
    apply parseExponent_length in X. intros [= _ _ <-]. simpl. lia.
  - destruct (parseExponent (c :: s)) as [[x r2]|] eqn:X; [|done].
    apply parseExponent_length in X. by intros [= _ _ <-].
Qed.

Lemma parseNumber_length s v r : parseNumber s = Some (v, r) -> length r < length s.
Proof.
  unfold parseNumber.
  destruct (match s with [] => _ | _ => _ end) as [neg s1] eqn:E.
  assert (length s1 <= length s) as Hs1.
  { destruct s as [|c s']; [by injection E as _ <-|].
    destruct (c =? 45)%N; injection E as _ <-; simpl; lia. }
  destruct s1 as [|c r0]; [done|].
  destruct (c =? 48)%N.
  - destruct (parseFraction 0 r0) as [[[m e] r2]|] eqn:F; [|done].
    apply parseFraction_length in F. intros [= _ <-]. simpl in *. lia.
  - destruct (digits (c :: r0) 0 0) as [[i k] r1] eqn:D. apply digits_length in D.
    destruct k; [done|].
    destruct (parseFraction i r1) as [[[m e] r2]|] eqn:F; [|done].
    apply parseFraction_length in F. intros [= _ <-]. simpl in *. lia.
Qed.

Lemma parseLiteral_length s v r : parseLiteral s = Some (v, r) -> length r < length s.
Proof.
  unfold parseLiteral.
  destruct (startsWith s (js "true")) eqn:T.
  { apply startsWith_app in T as (t & ->). intros [= _ <-]. rewrite length_drop, length_app. simpl. lia. }
  destruct (startsWith s (js "false")) eqn:F.
  { apply startsWith_app in F as (t & ->). intros [= _ <-]. rewrite length_drop, length_app. simpl. lia. }
  destruct (startsWith s (js "null")) eqn:U; [|done].
  apply startsWith_app in U as (t & ->). intros [= _ <-]. rewrite length_drop, length_app. simpl. lia.
Qed.

(** What parses with some fuel parses with twice the number of characters
    read: one unit less for a value, which spends its own first. *)
Lemma parse_fuel fuel :
  (forall s v r, parseValue fuel s = Some (v, r) ->
     length r < length s /\
     forall g, 2 * (length s - length r) <= g + 1 -> parseValue g s = Some (v, r)) /\
  (forall s acc v r, parseElements fuel s acc = Some (v, r) ->
     length r < length s /\
     forall g, 2 * (length s - length r) <= g -> parseElements g s acc = Some (v, r)) /\
  (forall s acc v r, parseMembers fuel s acc = Some (v, r) ->
     length r < length s /\
     forall g, 2 * (length s - length r) <= g -> parseMembers g s acc = Some (v, r)).
Proof.
  induction fuel as [|f (IHv & IHe & IHm)]; [by repeat split|].
  split; [|split].
  - intros s v r. cbn [parseValue].
    pose proof (skipWhite_length s) as Hs.
    destruct (skipWhite s) as [|c r0] eqn:Hskip; [done|]. simpl in Hs.
    intros H.
    assert (length r < length s /\
            (forall g', 2 * (length s - length r) <= g' + 2 ->
               (if (c =? 123)%N then
                  match skipWhite r0 with
                  | c' :: r' => if (c' =? 125)%N then Some (JObject [], r')
                                else parseMembers g' r0 []
                  | [] => None
                  end
                else if (c =? 91)%N then
                  match skipWhite r0 with
                  | c' :: r' => if (c' =? 93)%N then Some (JArray [], r')
                                else parseElements g' r0 []
                  | [] => None
                  end
                else if (c =? 34)%N then
                  match parseString r0 [] with
                  | Some (str, r') => Some (JString str, r')
                  | None => None
                  end
                else if ((c =? 116) || (c =? 102) || (c =? 110))%N then
                  parseLiteral (c :: r0)
                else parseNumber (c :: r0)) = Some (v, r))) as [Hlen Hg].
    { destruct (c =? 123)%N.
      { pose proof (skipWhite_length r0) as Hr0.
        destruct (skipWhite r0) as [|c' r'] eqn:Hskip'; [done|]. simpl in Hr0.
        destruct (c' =? 125)%N.
        - injection H as <- <-. split; [lia|done].
        - apply IHm in H as [Hlen Hg]. split; [lia|].
          intros g' Hg'. apply Hg. lia. }
      destruct (c =? 91)%N.
      { pose proof (skipWhite_length r0) as Hr0.
        destruct (skipWhite r0) as [|c' r'] eqn:Hskip'; [done|]. simpl in Hr0.
        destruct (c' =? 93)%N.
        - injection H as <- <-. split; [lia|done].
        - apply IHe in H as [Hlen Hg]. split; [lia|].
          intros g' Hg'. apply Hg. lia. }
      destruct (c =? 34)%N.
      { destruct (parseString r0 []) as [[str r']|] eqn:Hstr; [|done].
        apply parseString_length in Hstr. injection H as <- <-. split; [lia|done]. }
      destruct (_ || _).
      - split; [|done]. apply parseLiteral_length in H. simpl in H. lia.
      - split; [|done]. apply parseNumber_length in H. simpl in H. lia. }
    split; [done|]. intros [|g'] Hle; [lia|].
    cbn [parseValue]. rewrite Hskip. apply Hg. lia.
  - intros s acc v r. cbn [parseElements].
    destruct (parseValue f s) as [[v1 r1]|] eqn:Hv; [|done].
    apply IHv in Hv as [Hlen1 Hg1].
    pose proof (skipWhite_length r1) as Hr1.
    destruct (skipWhite r1) as [|c r'] eqn:Hskip; [done|]. simpl in Hr1.
    destruct (c =? 44)%N eqn:Hc.
    + intros [Hlen Hg]%IHe. split; [lia|].
      intros [|g'] Hle; [lia|]. cbn [parseElements].
      rewrite Hg1 by lia. rewrite Hskip, Hc. apply Hg. lia.
    + destruct (c =? 93)%N eqn:Hc'; [|done]. intros [= <- <-]. split; [lia|].
      intros [|g'] Hle; [lia|]. cbn [parseElements].
      rewrite Hg1 by lia. by rewrite Hskip, Hc, Hc'.
  - intros s acc v r. cbn [parseMembers].
    pose proof (skipWhite_length s) as Hs.
    destruct (skipWhite s) as [|c r0] eqn:Hskip; [done|]. simpl in Hs.
    destruct (c =? 34)%N eqn:Hc; [|done].
    destruct (parseString r0 []) as [[k r1]|] eqn:Hstr; [|done].
    pose proof (parseString_length _ _ _ _ Hstr) as Hk.
    pose proof (skipWhite_length r1) as Hr1.
    destruct (skipWhite r1) as [|c1 r2] eqn:Hskip1; [done|]. simpl in Hr1.
    destruct (c1 =? 58)%N eqn:Hc1; [|done].
    destruct (parseValue f r2) as [[v1 r3]|] eqn:Hv; [|done].
    apply IHv in Hv as [Hlen1 Hg1].
    pose proof (skipWhite_length r3) as Hr3.
    destruct (skipWhite r3) as [|c3 r4] eqn:Hskip3; [done|]. simpl in Hr3.
    destruct (c3 =? 44)%N eqn:Hc3.
    + intros [Hlen Hg]%IHm. split; [lia|].
      intros [|g'] Hle; [lia|]. cbn [parseMembers].
      rewrite Hskip, Hc, Hstr, Hskip1, Hc1, Hg1 by lia.
      rewrite Hskip3, Hc3. apply Hg. lia.
    + destruct (c3 =? 125)%N eqn:Hc3'; [|done]. intros [= <- <-]. split; [lia|].
      intros [|g'] Hle; [lia|]. cbn [parseMembers].
      rewrite Hskip, Hc, Hstr, Hskip1, Hc1, Hg1 by lia.
      by rewrite Hskip3, Hc3, Hc3'.
Qed.

(** No amount of fuel parses a text that [JSON_parse] rejects, and none
    reads another value from it. *)
Lemma JSON_parse_fuel fuel text v r :
  parseValue fuel text = Some (v, r) ->
  JSON_parse text = if is_empty (skipWhite r) then Some v else None.
Proof.
  intros H. unfold JSON_parse.
  destruct (parse_fuel fuel) as (Hv & _ & _).
  destruct (Hv _ _ _ H) as [_ Hg]. by rewrite Hg by lia.
Qed.

End JSFacts.

(** ** The classifier against the specification's algorithm *)

Module ClassifierFacts.
Import JS JSFacts Classifier.

Lemma lines_of_cons_white c s : isWhite c = true -> lines_of (c :: s) = lines_of s.
Proof.
  intros Hc. unfold lines_of. simpl.
  destruct (c =? LF)%N; simpl.
  - done.
  - destruct (split LF s) as [|l ls] eqn:E; [destruct (split_not_nil _ _ E)|].
    simpl. by rewrite trim_cons_white.
Qed.

Lemma lines_of_trimStart s : lines_of (trimStart s) = lines_of s.
Proof.
  induction s as [|c s IH]; simpl; [done|].
  destruct (isWhite c) eqn:Hc; [|done]. by rewrite lines_of_cons_white.
Qed.

(** The lines of pieces glued to a single white character. *)
Lemma lines_glue_white c ls :
  isWhite c = true -> ls <> [] ->
  List.filter nonblank (map trim (glue ls (split LF [c])))
  = List.filter nonblank (map trim ls).
Proof.
  intros Hc. induction ls as [|l [|l' ls'] IH]; intros Hne; [done| |].
  - simpl. destruct (c =? LF)%N; simpl.
    + by rewrite app_nil_r.
    + by rewrite trim_snoc_white.
  - change (glue (l :: l' :: ls') (split LF [c]))
      with (l :: glue (l' :: ls') (split LF [c])).
    rewrite !map_cons. cbn [List.filter]. by rewrite IH.
Qed.

Lemma lines_of_snoc_white c s : isWhite c = true -> lines_of (s ++ [c]) = lines_of s.
Proof.
  intros Hc. unfold lines_of. rewrite split_app.
  apply (lines_glue_white c); [done | apply split_not_nil].
Qed.

Lemma lines_of_app_white w :
  Forall (fun c => isWhite c = true) w -> forall s, lines_of (s ++ w) = lines_of s.
Proof.
  induction 1 as [|c w Hc _ IH]; intros s.
  - by rewrite app_nil_r.
  - rewrite (cons_middle c s w), app_assoc, IH. by apply lines_of_snoc_white.
Qed.

Lemma lines_of_trimEnd s : lines_of (trimEnd s) = lines_of s.
Proof.
  destruct (trimEnd_decompose s) as (w & Hw & E).
  rewrite E at 2. by rewrite lines_of_app_white.
Qed.

(** Trimming the body first, as the classifier does, changes none of its
    non-blank lines. *)
Lemma lines_of_trim s : lines_of (trim s) = lines_of s.
Proof. unfold trim. by rewrite lines_of_trimEnd, lines_of_trimStart. Qed.

(** Every character of a text is the separator or stands in a piece. *)
Lemma split_chars sep s c :
  c ∈ s -> c = sep \/ exists l, l ∈ split sep s /\ c ∈ l.
Proof.
  induction s as [|d s IH]; [by intros ?%elem_of_nil|].
  intros [->|Hin]%elem_of_cons; simpl.
  - destruct (N.eqb_spec d sep) as [->|Hne]; [by left|right].
    destruct (split sep s) as [|l ls]; eexists; split; by constructor.
  - destruct (IH Hin) as [->|(l & Hl & Hc)]; [by left|right].
    destruct (d =? sep)%N.
    + exists l. split; [by constructor|done].
    + destruct (split sep s) as [|l0 ls]; [by apply elem_of_nil in Hl|].
      apply elem_of_cons in Hl as [->|Hl].
      * exists (d :: l0). split; by constructor.
      * exists l. split; [by apply list_elem_of_further|done].
Qed.

(** A body with no non-blank line is blank. *)
Lemma lines_of_nil_blank s : lines_of s = [] -> trim s = [].
Proof.
  intros H. apply trim_white, Forall_forall. intros c Hc.
  destruct (split_chars LF s c Hc) as [->|(l & Hl & Hcl)]; [done|].
  assert (trim l = []) as Hl'.
  { destruct (trim l) as [|x t] eqn:E; [done|]. exfalso.
    assert (trim l ∈ lines_of s) as Hin.
    { unfold lines_of. apply list_elem_of_In, filter_In. split.
      - apply in_map, list_elem_of_In, Hl.
      - by rewrite E. }
    rewrite H in Hin. by apply elem_of_nil in Hin. }
  apply trim_nil_white in Hl'. by eapply Forall_forall in Hl'.
Qed.

(** A scan that meets no primitive finds the nearest object holding the
    field. *)
Lemma findLast_find k l :
  is_TypeError (findLast k l) = false ->
  findLast k l = ok (List.find (contains k) l).
Proof.
  induction l as [|obj l IH]; simpl; [done|].
  destruct obj as [| [] | m e | [|c s] | a | o]; simpl; try done; auto.
  - destruct (is_zero m e); simpl; [auto|done].
  - destruct (bool_decide _); simpl; auto.
Qed.

(** A scan that went through the whole list met no primitive that counts
    as true. *)
Lemma findLast_none k l :
  findLast k l = ok None -> Forall (fun obj => nonEmpty obj = (0 <? field_count obj)%nat) l.
Proof.
  induction l as [|obj l IH]; simpl; [constructor|].
  assert (forall v, truthy v = false -> nonEmpty v = (0 <? field_count v)%nat) as Hfalsy.
  { intros v Hv. unfold nonEmpty. rewrite Hv. by destruct v. }
  destruct (truthy obj) eqn:Hobj.
  - destruct obj as [| b | m e | s | a | o]; simpl; try done.
    + intros Hscan. constructor; [done|auto].
    + destruct (bool_decide _); simpl; [done|].
      intros Hscan. constructor; [done|auto].
  - intros Hscan. constructor; auto.
Qed.

Lemma last_filter_find {A} (p : A -> bool) l :
  last (List.filter p l) = List.find p (rev l).
Proof.
  induction l as [|x l IH] using rev_ind; [done|].
  rewrite List.filter_app, rev_app_distr. simpl.
  destruct (p x); simpl.
  - by rewrite last_snoc.
  - by rewrite app_nil_r.
Qed.

Lemma filter_ext_Forall {A} (p q : A -> bool) l :
  Forall (fun x => p x = q x) l -> List.filter p l = List.filter q l.
Proof. induction 1 as [|x l Hx _ IH]; simpl; [done|]. by rewrite Hx, IH. Qed.

(** Whenever classification does not abort with the runtime's TypeError, a
    blank body fails with "Empty response received" and any other body
    gives what the specification's algorithm gives. *)
Lemma parseJsonLinesResponse_outcome (body : jsstring) :
  is_TypeError (parseJsonLinesResponse body) = false ->
  parseJsonLinesResponse body =
    if is_empty (trim body) then throw (Error [Lit "Empty response received"])
    else outcome (classify body).
Proof.
  unfold parseJsonLinesResponse, classify.
  destruct (is_empty (trim body)) eqn:Hblank; [done|].
  fold (lines_of (trim body)). rewrite lines_of_trim.
  destruct (lines_of body) as [|l0 ls] eqn:Hlines.
  { apply lines_of_nil_blank in Hlines. by rewrite Hlines in Hblank. }
  cbn [is_empty]. set (parsed := omap JSON_parse (l0 :: ls)).
  destruct parsed as [|v vs] eqn:Hparsed; [done|].
  cbn [is_empty]. rewrite <- Hparsed. clear Hparsed Hlines Hblank.
  intros Hrun.
  assert (is_TypeError (findLast (js "data") (rev parsed)) = false) as Hdata.
  { by destruct (findLast (js "data") (rev parsed)) as [?|[]]. }
  pose proof (findLast_find _ _ Hdata) as Fd. rewrite Fd in Hrun |- *.
  cbn [mbind result_bind] in Hrun |- *.
  destruct (List.find (contains (js "data")) (rev parsed)); [done|].
  assert (is_TypeError (findLast (js "next_page_token") (rev parsed)) = false) as Htoken.
  { by destruct (findLast (js "next_page_token") (rev parsed)) as [?|[]]. }
  pose proof (findLast_find _ _ Htoken) as Ft. rewrite Ft.
  cbn [mbind result_bind].
  destruct (List.find (contains (js "next_page_token")) (rev parsed)); [done|].
  apply findLast_none, Forall_rev in Fd. rewrite rev_involutive in Fd.
  rewrite (filter_ext_Forall _ _ _ Fd), last_filter_find.
  destruct (List.find _ (rev parsed)); [done|].
  subst parsed. by destruct (omap JSON_parse (l0 :: ls)).
Qed.

Lemma findLast_harmless k l :
  Forall (fun v => harmless v = true) l -> is_TypeError (findLast k l) = false.
Proof.
  induction 1 as [|v l Hv _ IH]; simpl; [done|].
  destruct (truthy v) eqn:Htruthy; [|done].
  destruct v as [| b | m e | s | a | o];
    try (unfold harmless in Hv; rewrite Htruthy in Hv; discriminate Hv).
  - done.
  - simpl. by destruct (bool_decide _).
Qed.

Lemma parseJsonLinesResponse_harmless body :
  Forall (fun v => harmless v = true) (omap JSON_parse (lines_of body)) ->
  is_TypeError (parseJsonLinesResponse body) = false.
Proof.
  intros H. unfold parseJsonLinesResponse.
  destruct (is_empty (trim body)); [done|].
  fold (lines_of (trim body)). rewrite lines_of_trim.
  destruct (is_empty (lines_of body)); [done|].
  destruct (is_empty (omap JSON_parse (lines_of body))); [done|].
  apply Forall_rev in H.
  pose proof (findLast_harmless (js "data") _ H) as Hd.
  pose proof (findLast_harmless (js "next_page_token") _ H) as Ht.
  destruct (findLast (js "data") _) as [[?|]|[]]; try done.
  cbn [mbind result_bind].
  destruct (findLast (js "next_page_token") _) as [[?|]|[]]; try done.
  cbn [mbind result_bind]. by destruct (last _).
Qed.

(** What the classifier returns is an object or an array. *)
Lemma findLast_some k l obj :
  findLast k l = ok (Some obj) -> exists o, obj = JObject o.
Proof.
  induction l as [|v l IH]; simpl; [done|].
  destruct (truthy v); [|done].
  destruct v as [| b | m e | s | a | o]; simpl; try done.
  destruct (bool_decide _); simpl; [|done]. intros [= <-]. by exists o.
Qed.

Lemma parseJsonLinesResponse_object body v :
  parseJsonLinesResponse body = ok v -> is_object v = true.
Proof.
  unfold parseJsonLinesResponse.
  destruct (is_empty (trim body)); [done|].
  destruct (is_empty _); [done|]. destruct (is_empty _); [done|].
  set (parsed := omap JSON_parse _).
  destruct (findLast (js "data") (rev parsed)) as [[obj|]|] eqn:Hd; try done.
  { cbn [mbind result_bind]. intros [= <-].
    by destruct (findLast_some _ _ _ Hd) as (o & ->). }
  cbn [mbind result_bind].
  destruct (findLast (js "next_page_token") (rev parsed)) as [[obj|]|] eqn:Ht; try done.
  { cbn [mbind result_bind]. intros [= <-].
    by destruct (findLast_some _ _ _ Ht) as (o & ->). }
  cbn [mbind result_bind].
  destruct (last (List.filter nonEmpty parsed)) as [obj|] eqn:Hl; [|done].
  intros [= <-]. apply last_Some in Hl as (l' & Hl).
  assert (obj ∈ List.filter nonEmpty parsed) as Hin.
  { rewrite Hl. apply elem_of_app. right. by constructor. }
  apply list_elem_of_In, filter_In in Hin as [Hin Hne].
  apply findLast_none, Forall_rev in Hd. rewrite rev_involutive in Hd.
  rewrite Forall_forall in Hd. apply list_elem_of_In, Hd in Hin.
  rewrite Hin in Hne. by destruct obj.
Qed.

(** The last line that parses holds a [data] field: it is what the
    classifier returns, whatever stands before it. *)
Lemma parseJsonLinesResponse_last_data body parsed o :
  omap JSON_parse (lines_of body) = parsed ++ [JObject o] ->
  is_Some (assoc (js "data") o) ->
  parseJsonLinesResponse body = ok (JObject o).
Proof.
  intros Hparsed Hdata. unfold parseJsonLinesResponse.
  destruct (is_empty (trim body)) eqn:Hblank.
  { assert (lines_of body = []) as Hl.
    { rewrite <- lines_of_trim. by destruct (trim body). }
    rewrite Hl in Hparsed. by destruct parsed. }
  fold (lines_of (trim body)). rewrite lines_of_trim.
  destruct (lines_of body) as [|l0 ls]; [by destruct parsed|].
  cbn [is_empty]. rewrite Hparsed.
  destruct (parsed ++ [JObject o]) eqn:E; [by destruct parsed|].
  cbn [is_empty]. rewrite <- E, rev_unit. cbn [findLast truthy has_property].
  rewrite (bool_decide_true _ Hdata). reflexivity.
Qed.

(** Every line parses to the empty object: classification fails. *)
Lemma parseJsonLinesResponse_all_empty body :
  trim body <> [] ->
  Forall (fun line => JSON_parse line = Some (JObject [])) (lines_of body) ->
  parseJsonLinesResponse body
  = throw (Error [Lit "No data or next_page_token found in response"]).
Proof.
  intros Hblank Hall.
  assert (Forall (fun v => v = JObject []) (omap JSON_parse (lines_of body))) as Hobjs.
  { induction Hall as [|line ls Hline _ IH]; [constructor|].
    cbn [omap list_omap]. rewrite Hline. by constructor. }
  assert (lines_of body <> []) as Hlines.
  { intros E. by apply lines_of_nil_blank in E. }
  assert (omap JSON_parse (lines_of body) <> []) as Hsome.
  { destruct (lines_of body) as [|l0 ls]; [done|].
    apply Forall_cons in Hall as [Hl0 _]. cbn [omap list_omap]. by rewrite Hl0. }
  assert (forall k, findLast k (rev (omap JSON_parse (lines_of body))) = ok None) as Hscan.
  { intros k. apply Forall_rev in Hobjs. clear -Hobjs.
    induction Hobjs as [|v vs -> _ IH]; [done|]. cbn. exact IH. }
  assert (List.filter nonEmpty (omap JSON_parse (lines_of body)) = []) as Hfilter.
  { clear -Hobjs. induction Hobjs as [|v vs -> _ IH]; [done|]. cbn. apply IH. }
  unfold parseJsonLinesResponse.
  destruct (is_empty (trim body)) eqn:E; [by destruct (trim body)|].
  fold (lines_of (trim body)). rewrite lines_of_trim.
  destruct (lines_of body) as [|l0 ls] eqn:El; [done|]. cbn [is_empty].
  destruct (omap JSON_parse (l0 :: ls)) as [|v vs] eqn:Ep; [done|]. cbn [is_empty].
  rewrite !Hscan. cbn [mbind result_bind]. by rewrite Hfilter.
Qed.

(** C1 (as amended). Whenever classification does not abort with the
    runtime's TypeError (no scan reaches a number, a string or [true]):
    a blank body fails with "Empty response received"; any other body gives
    what the specification's algorithm gives: over the non-blank trimmed
    lines that parse, the last object with a [data] field, else the last
    with a [next_page_token] field, else the last with at least one field,
    else the failure "No valid JSON objects" when no line parsed and "No
    data or next_page_token" otherwise. In particular a body whose last
    line that parses is an object with a [data] field returns that object,
    whatever stands before it, and a body that is not blank and whose lines
    all parse to the empty object fails with "No data or next_page_token". *)
Theorem parseJsonLinesResponse_refines :
  (forall body,
      is_TypeError (parseJsonLinesResponse body) = false ->
      parseJsonLinesResponse body =
        if is_empty (trim body) then throw (Error [Lit "Empty response received"])
        else outcome (classify body))
  /\ (forall body parsed o,
        omap JSON_parse (lines_of body) = parsed ++ [JObject o] ->
        is_Some (assoc (js "data") o) ->
        parseJsonLinesResponse body = ok (JObject o)
        /\ classify body = DataRows (JObject o))
  /\ (forall body,
        trim body <> [] ->
        Forall (fun line => JSON_parse line = Some (JObject [])) (lines_of body) ->
        parseJsonLinesResponse body
        = throw (Error [Lit "No data or next_page_token found in response"])
        /\ classify body = ParseFailure NoDataOrContinuation).
Proof.
  split; [exact parseJsonLinesResponse_outcome|]. split.
  - intros body parsed o Hparsed Hdata.
    split; [by apply (parseJsonLinesResponse_last_data body parsed)|].
    unfold classify. rewrite Hparsed, rev_unit. cbn [List.find contains].
    by rewrite (bool_decide_true _ Hdata).
  - intros body Hblank Hall.
    pose proof (parseJsonLinesResponse_all_empty body Hblank Hall) as Hfails.
    split; [done|].
    pose proof (parseJsonLinesResponse_outcome body) as Hout.
    rewrite Hfails in Hout. specialize (Hout eq_refl).
    destruct (is_empty (trim body)); [done|].
    destruct (classify body) as [obj|obj|obj|[]]; done.
Qed.

(** The theorem at the body of three lines of the specification's example:
    a malformed line, a line with a continuation token, a line with data. *)
Lemma parseJsonLinesResponse_refines_witness :
  parseJsonLinesResponse (json_text "oops|{'next_page_token':'abc'}|{'data':[{'x':1}]}")
  = outcome (classify (json_text "oops|{'next_page_token':'abc'}|{'data':[{'x':1}]}")).
Proof.
  apply (proj1 parseJsonLinesResponse_refines
           (json_text "oops|{'next_page_token':'abc'}|{'data':[{'x':1}]}")).
  vm_compute. reflexivity.
Defined.

(** C1 as stated fails on a blank body, which is turned down before any
    line is read, with a message of its own; and on a body where a number
    follows the line with data, which the specification's algorithm skips
    and the scan stumbles on. *)
Lemma parseJsonLinesResponse_differs :
  parseJsonLinesResponse (js "  ") = throw (Error [Lit "Empty response received"])
  /\ outcome (classify (js "  "))
     = throw (Error [Lit "No valid JSON objects found in response"])
  /\ parseJsonLinesResponse (json_text "{'data':[]}|5") = throw TypeError
  /\ classify (json_text "{'data':[]}|5") = DataRows (JObject [(js "data", JArray [])]).
Proof. vm_compute. repeat split; reflexivity. Qed.

End ClassifierFacts.

(** ** The network-address resolver *)

Module NetworkFacts.
Import JS JSFacts Network.

Lemma getNetworkUrl_qualify n :
  getNetworkUrl n = (p ← qualify n; ok (dropTrailingSlash p)).
Proof.
  unfold getNetworkUrl, qualify.
  destruct (lookup n knownNetworks); [done|].
  by destruct (existsb (str_eqb n) inherited).
Qed.

(** An address that has its scheme is no short name and no inherited
    name, and is taken as it is. *)
Lemma qualify_hasScheme s : hasScheme s = true -> qualify s = ok s.
Proof.
  unfold hasScheme. intros H.
  assert (exists t, s = js "http://" ++ t \/ s = js "https://" ++ t) as (t & Hs).
  { apply orb_true_iff in H as [(t & ->)%startsWith_app|(t & ->)%startsWith_app];
      exists t; auto. }
  unfold qualify.
  destruct Hs as [-> | ->]; vm_compute; reflexivity.
Qed.

(** What [qualify] returns has a scheme. *)
Lemma qualify_scheme n p : qualify n = ok p -> hasScheme p = true.
Proof.
  assert (forall s, hasScheme (if negb (startsWith s (js "http://"))
                                  && negb (startsWith s (js "https://"))
                               then js "https://" ++ s else s) = true) as Hs.
  { intros s. unfold hasScheme.
    destruct (startsWith s (js "http://")) eqn:H1; cbn [negb andb].
    - by rewrite H1.
    - destruct (startsWith s (js "https://")) eqn:H2; cbn [negb].
      + by rewrite H2, orb_true_r.
      + by rewrite (startsWith_prefix (js "https://")), orb_true_r. }
  unfold qualify.
  destruct (lookup n knownNetworks) as [host|]; cbn [mbind result_bind].
  - intros [= <-]. apply Hs.
  - destruct (existsb (str_eqb n) inherited); cbn [mbind result_bind]; [done|].
    intros [= <-]. apply Hs.
Qed.

Lemma hasScheme_app t u : hasScheme t = true -> hasScheme (t ++ u) = true.
Proof.
  unfold hasScheme.
  intros [(v & ->)%startsWith_app|(v & ->)%startsWith_app]%orb_true_iff;
    rewrite <- app_assoc, startsWith_prefix; by rewrite ?orb_true_r.
Qed.

(** A known scheme has two slashes at its end. *)
Lemma scheme_alone s : hasScheme s = true -> s = js "http://" \/ s = js "https://" \/
  exists t x, s = (t ++ [x]) /\ hasScheme t = true.
Proof.
  unfold hasScheme.
  intros [(t & ->)%startsWith_app|(t & ->)%startsWith_app]%orb_true_iff.
  - destruct t as [|c t] using rev_ind; [by left|]. rename t into t', c into x.
    right. right. exists (js "http://" ++ t'), x. split; [by rewrite app_assoc|].
    by rewrite (startsWith_prefix (js "http://")).
  - destruct t as [|c t] using rev_ind; [by right; left|]. rename t into t', c into x.
    right. right. exists (js "https://" ++ t'), x. split; [by rewrite app_assoc|].
    by rewrite (startsWith_prefix (js "https://")), orb_true_r.
Qed.

Lemma endsWith_slash r :
  endsWith r (js "/") = match rev r with c :: _ => (c =? 47)%N | [] => false end.
Proof.
  unfold endsWith. change (rev (js "/")) with [47%N].
  destruct (rev r) as [|c q]; cbn [startsWith]; [done|]. by rewrite andb_true_r.
Qed.

Lemma endsWith_slashes r :
  endsWith r (js "//") =
  match rev r with c :: d :: _ => (c =? 47)%N && (d =? 47)%N | _ => false end.
Proof.
  unfold endsWith. change (rev (js "//")) with [47%N; 47%N].
  destruct (rev r) as [|c [|d q]]; cbn [startsWith]; [done|by rewrite andb_false_r|].
  by rewrite andb_true_r.
Qed.

(** C10 (as amended). For every input that resolves (it is none of the
    names an object inherits) and whose address with its scheme does not end
    in two slashes, resolving the result again gives the result back, and
    the result starts with [http://] or [https://] and does not end in a
    slash. *)
Theorem getNetworkUrl_idempotent (n p : jsstring) :
  qualify n = ok p ->
  endsWith p (js "//") = false ->
  exists r, getNetworkUrl n = ok r
            /\ getNetworkUrl r = ok r
            /\ hasScheme r = true
            /\ endsWith r (js "/") = false.
Proof.
  intros Hq Hend. pose proof (qualify_scheme _ _ Hq) as Hs.
  rewrite getNetworkUrl_qualify, Hq. cbn [mbind result_bind].
  exists (dropTrailingSlash p). split; [done|].
  assert (forall r, hasScheme r = true -> endsWith r (js "/") = false ->
                    getNetworkUrl r = ok r) as Hfix.
  { intros r Hr He. rewrite getNetworkUrl_qualify, qualify_hasScheme by done.
    cbn [mbind result_bind]. f_equal. unfold dropTrailingSlash.
    rewrite endsWith_slash in He. destruct (rev r) as [|c q]; [done|].
    by rewrite He. }
  assert (hasScheme (dropTrailingSlash p) = true
          /\ endsWith (dropTrailingSlash p) (js "/") = false) as [H1 H2]; [|auto].
  rewrite endsWith_slashes in Hend. rewrite endsWith_slash.
  destruct (scheme_alone _ Hs) as [->|[->|(t & x & -> & Ht)]]; [done|done|].
  unfold dropTrailingSlash. rewrite rev_unit in Hend |- *.
  destruct (x =? 47)%N eqn:Hx.
  - rewrite rev_involutive. split; [done|].
    destruct (rev t) as [|y q]; [done|]. done.
  - rewrite rev_unit. split; [by apply hasScheme_app|done].
Qed.

(** The theorem at an address with a port and one slash at its end. *)
Lemma getNetworkUrl_idempotent_witness :
  exists r, getNetworkUrl (js "localhost:8080/") = ok r
            /\ getNetworkUrl r = ok r
            /\ hasScheme r = true
            /\ endsWith r (js "/") = false.
Proof.
  apply (getNetworkUrl_idempotent (js "localhost:8080/") (js "https://localhost:8080/"));
    reflexivity.
Defined.

(** C10 as stated fails: of two slashes at the end one stays, and goes
    only when the result is resolved again; the empty input resolves to
    [https:/], which has no scheme and ends in a slash. *)
Lemma getNetworkUrl_not_idempotent :
  getNetworkUrl (js "a//") = ok (js "https://a/")
  /\ getNetworkUrl (js "https://a/") = ok (js "https://a")
  /\ endsWith (js "https://a/") (js "/") = true
  /\ getNetworkUrl (js "") = ok (js "https:/")
  /\ hasScheme (js "https:/") = false
  /\ getNetworkUrl (js "https:/") = ok (js "https://https:")
  /\ getNetworkUrl (js "toString") = throw TypeError.
Proof. vm_compute. repeat split; reflexivity. Qed.

End NetworkFacts.

(** ** The polling loops *)

Module EngineFacts.
Import JS JSFacts Classifier ClassifierFacts Network Engine.

(** A turn of [queryTable]'s loop, from the answer it gets. *)
Section QueryTableTurn.
Context (c : client) (collection_slug table_name : option jsstring).
Context (answers : nat -> served) (trace : list event).
Context (remaining pollCount : nat) (payload : Payload).
Hypothesis slug_fine : well_formed (text_of collection_slug) = true.
Hypothesis name_fine : well_formed (text_of table_name) = true.

Local Abbreviation asked :=
  (trace ++ [Request c (FilterRows (text_of collection_slug) (text_of table_name) payload)]).

Lemma queryTable_turn_refused why :
  answers (requests trace) = Refused why ->
  queryTable_poll c collection_slug table_name (S remaining) pollCount payload answers trace
  = (throw (Error [Str why]), asked).
Proof.
  intros Ha. cbn [queryTable_poll]. run. unfold encodeURIComponent.
  rewrite slug_fine, name_fine. cbn beta iota. by rewrite Ha.
Qed.

Lemma queryTable_turn_unclassified r e :
  answers (requests trace) = Answered r ->
  classify_data (data_of r) = throw e ->
  queryTable_poll c collection_slug table_name (S remaining) pollCount payload answers trace
  = (throw e, asked).
Proof.
  intros Ha Hc. cbn [queryTable_poll]. run. unfold encodeURIComponent.
  rewrite slug_fine, name_fine. cbn beta iota. rewrite Ha. cbn beta iota.
  by rewrite Hc.
Qed.




End QueryTableTurn.

Lemma requests_app t1 t2 : requests (t1 ++ t2) = (requests t1 + requests t2)%nat.
Proof. unfold requests. by rewrite List.filter_app, length_app. Qed.

Lemma delays_app t1 t2 : delays (t1 ++ t2) = delays t1 ++ delays t2.
Proof. unfold delays. by rewrite omap_app. Qed.


(** One poll of [pollSqlResults], from the answer it gets. *)
Section PollOnce.
Context (c : client) (nextPageUrl : JSON) (sql : option jsstring).
Context (answers : nat -> served) (trace : list event).

Local Abbreviation asked := (trace ++ [Request c (Page nextPageUrl)]).

Lemma poll_once_refused why :
  answers (requests trace) = Refused why ->
  poll_once c nextPageUrl sql answers trace = (throw (Error [Str why]), asked).
Proof. intros Ha. unfold poll_once. run. by rewrite Ha. Qed.

Lemma poll_once_invalid content_type text :
  answers (requests trace) = Answered (Text content_type text) ->
  isJson (Text content_type text) = false ->
  JSON_parse text = None ->
  poll_once c nextPageUrl sql answers trace
  = (throw (Error [Lit "Invalid JSON response: "; Str (substring0 200 text); Lit "..."]),
     asked).
Proof.
  intros Ha Hj Hp. unfold poll_once. run. rewrite Ha. cbn beta iota.
  unfold decode. by rewrite Hj, Hp.
Qed.



End PollOnce.

(** A turn of [pollSqlResults]'s loop, from what its poll ends in. *)
Section PollTurn.
Context (c : client) (sql : option jsstring) (max_polls : Z) (poll_interval : Q).
Context (answers : nat -> served) (trace : list event).
Context (remaining pollCount : nat) (nextPageUrl : JSON).

Local Abbreviation slept := (trace ++ [Delay (poll_interval * 1000)]).



Lemma pollSqlResults_turn_throw e trace' :
  poll_once c nextPageUrl sql answers slept = (throw e, trace') ->
  pollSqlResults_loop c sql max_polls poll_interval (S remaining) pollCount nextPageUrl
    answers trace
  = if (Z.of_nat pollCount <? max_polls - 1)%Z
    then pollSqlResults_loop c sql max_polls poll_interval remaining (S pollCount)
           nextPageUrl answers trace'
    else (throw (Error (Lit "Polling failed: " :: exn_message e)), trace').
Proof.
  intros H. cbn [pollSqlResults_loop]. run. rewrite H.
  by destruct (Z.of_nat pollCount <? max_polls - 1)%Z.
Qed.

End PollTurn.

(** *** Bounds on what a computation adds to the trace *)















(** *** Running out of turns *)



(** *** The engine's four properties *)




(** C3 (as amended). In the table query a transport error, or a body that
    fails to classify, ends the loop at whatever turn it comes, and the call
    fails with it. In the SQL polling loop any exception of a poll is
    swallowed while the turn is not the last, the next turn polling the same
    URL, and on the last turn it fails the call with "Polling failed"; a
    transport error and a body that is no JSON are both such exceptions. *)
Theorem errors_while_polling :
  (forall c collection_slug table_name remaining pollCount payload answers trace,
      well_formed (text_of collection_slug) = true ->
      well_formed (text_of table_name) = true ->
      let asked :=
        trace ++ [Request c (FilterRows (text_of collection_slug) (text_of table_name)
                                        payload)] in
      (forall why,
          answers (requests trace) = Refused why ->
          queryTable_poll c collection_slug table_name (S remaining) pollCount payload
            answers trace
          = (throw (Error [Str why]), asked))
      /\ (forall r e,
            answers (requests trace) = Answered r ->
            classify_data (data_of r) = throw e ->
            queryTable_poll c collection_slug table_name (S remaining) pollCount payload
              answers trace
            = (throw e, asked)))
  /\ (forall a c answers why,
        createHttpClient (Args.network a) (Args.access_token a) = ok c ->
        well_formed (text_of (Args.collection_slug a)) = true ->
        well_formed (text_of (Args.table_name a)) = true ->
        answers 0%nat = Refused why ->
        fst (queryTable (Some a) answers [])
        = throw (Error [Lit "Failed to query table: "; Str why])
        /\ requests (snd (queryTable (Some a) answers [])) = 1%nat)
  /\ (forall c sql max_polls poll_interval remaining pollCount url answers trace e trace',
        poll_once c url sql answers (trace ++ [Delay (poll_interval * 1000)])
        = (throw e, trace') ->
        pollSqlResults_loop c sql max_polls poll_interval (S remaining) pollCount url
          answers trace
        = if (Z.of_nat pollCount <? max_polls - 1)%Z
          then pollSqlResults_loop c sql max_polls poll_interval remaining (S pollCount)
                 url answers trace'
          else (throw (Error (Lit "Polling failed: " :: exn_message e)), trace'))
  /\ (forall c url sql answers trace,
        (forall why,
            answers (requests trace) = Refused why ->
            poll_once c url sql answers trace
            = (throw (Error [Str why]), trace ++ [Request c (Page url)]))
        /\ (forall content_type text,
              answers (requests trace) = Answered (Text content_type text) ->
              isJson (Text content_type text) = false ->
              JSON_parse text = None ->
              poll_once c url sql answers trace
              = (throw (Error [Lit "Invalid JSON response: ";
                               Str (substring0 200 text); Lit "..."]),
                 trace ++ [Request c (Page url)]))).
Proof.
  split; [|split; [|split]].
  - intros c cs tn remaining pollCount payload answers trace Hs Hn asked. split.
    + intros why Ha. by apply queryTable_turn_refused.
    + intros r e Ha Hc.
      by apply (queryTable_turn_unclassified c cs tn answers trace remaining pollCount
                  payload Hs Hn r).
  - intros a c answers why Hc Hs Hn Ha. unfold queryTable. run. rewrite Hc.
    cbn beta iota. unfold maxPolls.
    rewrite (queryTable_turn_refused c _ _ answers [] 9 0 _ Hs Hn why Ha).
    by split.
  - intros. by apply pollSqlResults_turn_throw.
  - intros c url sql answers trace. split.
    + intros. by apply poll_once_refused.
    + intros content_type text Ha Hj Hp.
      by apply (poll_once_invalid c url sql answers trace content_type).
Qed.

(** The theorem at a table query whose first request finds no connection. *)
Lemma errors_while_polling_witness :
  fst (queryTable (Some example_args) (fun _ => Refused (js "connect ECONNREFUSED")) [])
  = throw (Error [Lit "Failed to query table: "; Str (js "connect ECONNREFUSED")])
  /\ requests (snd (queryTable (Some example_args)
                               (fun _ => Refused (js "connect ECONNREFUSED")) []))
     = 1%nat.
Proof.
  apply (proj1 (proj2 errors_while_polling) example_args example_client); reflexivity.
Defined.

(** C3 as stated fails at both places. The table query, nine turns still
    allowed, does not try again after a transport error: it fails having
    sent one request. The SQL polling loop, on a turn that is not its last,
    does not surface a body that is no JSON: it polls again and answers with
    what the next poll brings. *)
Lemma errors_neither_retried_nor_surfaced :
  queryTable (Some example_args)
             (fun i => match i with
                       | O => Refused (js "timeout")
                       | _ => Answered (Text None (json_text "{}|{'data':[]}"))
                       end) []
  = (throw (Error [Lit "Failed to query table: "; Str (js "timeout")]),
     [Request example_client
        (FilterRows (js "virusseq") (js "variants")
           {| tableName := Some (js "variants"); filters := JObject [];
              pagination := (of_nat 100, of_nat 0); order := None;
              next_page_token := None |})])
  /\ pollSqlResults example_client (JString (js "/next/1")) None 2 1
       (fun i => match i with
                 | O => Answered (Text None (js "<html>busy</html>"))
                 | _ => Answered (Json (JObject [(js "data", JArray [])]))
                 end) []
     = (ok (NoResults None),
        [Delay 1000; Request example_client (Page (JString (js "/next/1")));
         Delay 1000; Request example_client (Page (JString (js "/next/1")))]).
Proof. vm_compute. split; reflexivity. Qed.






End EngineFacts.

(** ** The tool dispatcher *)

Module DispatchFacts.
Import JS JSFacts Engine Dispatch.

Section Handlers.
Context (listCollections listTables getSchemaFields countRows : option Args.t -> M reply).

Local Abbreviation dispatch :=
  (dispatch listCollections listTables getSchemaFields countRows).
Local Abbreviation callTool :=
  (callTool listCollections listTables getSchemaFields countRows).

Lemma dispatch_unknown name args answers trace :
  name ∉ toolNames ->
  dispatch name args answers trace
  = (throw (Error [Lit "Unknown tool: "; Str name]), trace).
Proof.
  intros Hname. unfold Dispatch.dispatch.
  assert (forall known, known ∈ toolNames -> str_eqb name known = false) as Hne.
  { intros known Hin. destruct (str_eqb name known) eqn:E; [|done].
    apply str_eqb_eq in E. by subst. }
  rewrite !Hne; [done|unfold toolNames; cbn [map]; set_solver..].
Qed.

(** C8. A call of a tool always ends in a reply of the protocol, never in
    an error of the protocol: what the tool returns is the reply; whatever
    exception it throws becomes the reply whose text is "Error: " and the
    exception's message; and a name outside the six tools throws "Unknown
    tool", which becomes such a reply too. *)
Theorem callTool_always_replies name args answers trace :
  (exists r, fst (callTool name args answers trace) = ok r)
  /\ (forall r trace',
        dispatch name args answers trace = (ok r, trace') ->
        callTool name args answers trace = (ok r, trace'))
  /\ (forall e trace',
        dispatch name args answers trace = (throw e, trace') ->
        callTool name args answers trace
        = (ok (Failure (Lit "Error: " :: exn_message e)), trace'))
  /\ (name ∉ toolNames ->
      dispatch name args answers trace
      = (throw (Error [Lit "Unknown tool: "; Str name]), trace)
      /\ callTool name args answers trace
         = (ok (Failure [Lit "Error: "; Lit "Unknown tool: "; Str name]), trace)).
Proof.
  unfold Dispatch.callTool, attempt. repeat split.
  - destruct (dispatch name args answers trace) as [[r|e] trace']; by eexists.
  - by intros r trace' ->.
  - by intros e trace' ->.
  - by apply dispatch_unknown.
  - by rewrite dispatch_unknown.
Qed.

End Handlers.

(** A tool that is not there, and a table query that cannot connect: both
    are answered. *)
Example callTool_examples :
  let quiet : option Args.t -> M reply := fun _ => mret (Said []) in
  callTool quiet quiet quiet quiet (js "drop_table") None (fun _ => Refused []) []
  = (ok (Failure [Lit "Error: "; Lit "Unknown tool: "; Str (js "drop_table")]), [])
  /\ fst (callTool quiet quiet quiet quiet (js "query_table") None (fun _ => Refused []) [])
     = ok (Failure [Lit "Error: "; Runtime])
  /\ fst (callTool quiet quiet quiet quiet (js "query_table") (Some example_args)
             (fun _ => Refused (js "timeout")) [])
     = ok (Failure [Lit "Error: "; Lit "Failed to query table: "; Str (js "timeout")]).
Proof. vm_compute. repeat split; reflexivity. Qed.

End DispatchFacts.

(** ** The session bridge *)

Module BridgeFacts.
Import JS JSFacts Bridge.

(** C7. Closing a session that is not in the table answers 404 and changes
    nothing. Closing one that is there kills its worker and takes it out of
    the table: after that, closing it again answers 404, the listing does
    not name it, and a message sent to it answers 404. *)
Theorem Close_removes_session (σ : state) (sessionId : jsstring) :
  match activeSessions σ !! sessionId with
  | None => Close sessionId σ = (Failed 404 "Session not found", σ)
  | Some r =>
      let σ' := snd (Close sessionId σ) in
      fst (Close sessionId σ) = Closed
      /\ killed (objects σ' r) = true
      /\ activeSessions σ' = delete sessionId (activeSessions σ)
      /\ Close sessionId σ' = (Failed 404 "Session not found", σ')
      /\ (forall ids, List σ' = Sessions ids -> sessionId ∉ ids)
      /\ (forall schedule fuel message,
            Send schedule fuel sessionId message σ'
            = Some (Failed 404 "Session not found", σ'))
  end.
Proof.
  unfold Close. destruct (activeSessions σ !! sessionId) as [r|] eqn:Hr; [|done].
  cbn [fst snd activeSessions objects]. repeat split.
  - unfold store. by rewrite Nat.eqb_refl.
  - by rewrite lookup_delete_eq.
  - intros ids [= <-]. cbn [activeSessions].
    intros ((k & r') & E & Hin%elem_of_map_to_list)%list_elem_of_fmap.
    cbn in E. subst k. by rewrite lookup_delete_eq in Hin.
  - intros schedule fuel message. unfold Send. cbn [activeSessions].
    by rewrite lookup_delete_eq.
Qed.

(** A session that was opened and is closed twice. *)
Example Close_twice :
  let σ1 := snd (Open (js "7f3c") empty_state) in
  let σ2 := snd (Close (js "7f3c") σ1) in
  fst (Close (js "7f3c") σ1) = Closed
  /\ fst (Close (js "7f3c") σ2) = Failed 404 "Session not found"
  /\ List σ1 = Sessions [js "7f3c"]
  /\ List σ2 = Sessions [].
Proof. vm_compute. repeat split; reflexivity. Qed.

(** *** Framing the worker's output *)

Lemma split_no_sep sep s line : line ∈ split sep s -> sep ∉ line.
Proof.
  revert line. induction s as [|c s IH]; intros line; simpl.
  - intros ->%list_elem_of_singleton. apply not_elem_of_nil.
  - destruct (N.eqb_spec c sep) as [->|Hne].
    + intros [->|Hin]%elem_of_cons; [apply not_elem_of_nil|by apply IH].
    + destruct (split sep s) as [|l ls] eqn:E; [by destruct (split_not_nil _ _ E)|].
      intros [->|Hin]%elem_of_cons.
      * apply not_elem_of_cons. split; [done|]. apply IH. by constructor.
      * apply IH. by constructor.
Qed.

(** The pieces of a text continued: the complete pieces so far, then the
    pieces of the unterminated tail continued. *)
Lemma split_app_tail sep a b :
  split sep (a ++ b)
  = removelast (split sep a) ++ split sep (default [] (last (split sep a)) ++ b).
Proof.
  induction a as [|c a IH]; [done|]. simpl.
  destruct (c =? sep)%N eqn:Hc.
  - rewrite IH. destruct (split sep a) as [|l ls] eqn:E; [by destruct (split_not_nil _ _ E)|].
    done.
  - rewrite IH. destruct (split sep a) as [|l [|l' ls]] eqn:E;
      [by destruct (split_not_nil _ _ E)| |].
    + cbn [removelast last default app]. simpl. by rewrite Hc.
    + done.
Qed.

Lemma tail_of_app a b : tail_of (a ++ b) = tail_of (tail_of a ++ b).
Proof.
  unfold tail_of. rewrite split_app_tail, last_app.
  by destruct (last (split LF _)) eqn:E; [|by apply last_None, split_not_nil in E].
Qed.

Lemma complete_lines_app a b :
  complete_lines (a ++ b) = complete_lines a ++ complete_lines (tail_of a ++ b).
Proof.
  unfold complete_lines, tail_of. rewrite split_app_tail.
  apply removelast_app, split_not_nil.
Qed.

Lemma tail_of_no_newline text : LF ∉ tail_of text.
Proof.
  unfold tail_of. destruct (last (split LF text)) as [l|] eqn:E; [|apply not_elem_of_nil].
  apply (split_no_sep LF text). apply last_Some in E as (l' & ->).
  apply elem_of_app. right. by constructor.
Qed.

(** What one chunk does to a session, in terms of the text it decodes to. *)
Lemma on_data_text data s :
  buffer (on_data data s) = tail_of (buffer s ++ toString data)
  /\ responses (on_data data s)
     = responses s
       ++ omap (fun line => if nonblank (trim line) then JSON_parse line else None)
               (complete_lines (buffer s ++ toString data)).
Proof. done. Qed.

(** After every chunk the buffer holds no line feed. *)
Lemma on_data_no_newline data s : LF ∉ buffer (on_data data s).
Proof. apply tail_of_no_newline. Qed.

Lemma split_no_sep_single sep s : sep ∉ s -> split sep s = [s].
Proof.
  induction s as [|c s IH]; [done|]. intros [Hc Hs]%not_elem_of_cons. simpl.
  destruct (N.eqb_spec c sep) as [->|_]; [done|]. by rewrite IH.
Qed.

(** The session after a sequence of chunks, in terms of the text the chunks
    decode to, one by one: the buffer is the unterminated tail of that text
    and the queue has grown by its complete lines that parse. *)
Lemma feed_text chunks : forall s,
  LF ∉ buffer s ->
  buffer (feed chunks s) = tail_of (buffer s ++ concat (map toString chunks))
  /\ responses (feed chunks s)
     = responses s
       ++ omap (fun line => if nonblank (trim line) then JSON_parse line else None)
               (complete_lines (buffer s ++ concat (map toString chunks))).
Proof.
  induction chunks as [|data chunks IH]; intros s Hs.
  - cbn [feed foldl map concat]. rewrite app_nil_r.
    unfold tail_of, complete_lines. rewrite (split_no_sep_single _ _ Hs).
    cbn. by rewrite app_nil_r.
  - cbn [feed foldl map concat].
    destruct (IH (on_data data s) (on_data_no_newline data s)) as [Hb Hr].
    unfold feed in Hb, Hr. rewrite Hb, Hr.
    destruct (on_data_text data s) as [-> ->].
    rewrite <- tail_of_app, <- !app_assoc. split; [done|].
    f_equal. rewrite <- omap_app. f_equal.
    by rewrite (app_assoc (buffer s)), <- complete_lines_app, <- app_assoc.
Qed.

(** White space of the language lies apart from every character a JSON
    value can start with. *)
Lemma white_range c : isWhite c = true -> (c < 34 \/ 160 <= c)%N.
Proof.
  unfold isWhite. rewrite !orb_true_iff, !andb_true_iff, !N.leb_le, !N.eqb_eq. lia.
Qed.

Lemma skipWhite_suffix s : exists w, s = w ++ skipWhite s.
Proof.
  induction s as [|c s (w & IH)]; [by exists []|]. simpl.
  destruct (isJsonWhite c); [|by exists []]. exists (c :: w). simpl. by rewrite <- IH.
Qed.

(** A blank line is no JSON text: the test for blank lines in the listener
    drops nothing that would have parsed. *)
Lemma JSON_parse_blank line : trim line = [] -> JSON_parse line = None.
Proof.
  intros Hblank%trim_nil_white. unfold JSON_parse.
  replace (2 * length line + 2)%nat with (S (2 * length line + 1)) by lia.
  cbn [parseValue].
  destruct (skipWhite_suffix line) as (w & E).
  destruct (skipWhite line) as [|c r]; [done|].
  rewrite E in Hblank. apply Forall_app in Hblank as [_ Hblank].
  apply Forall_cons in Hblank as [Hc%white_range _].
  assert (forall x, (34 <= x < 160)%N -> (c =? x)%N = false) as Hne.
  { intros x Hx. apply N.eqb_neq. lia. }
  rewrite !Hne by lia. cbn [orb].
  unfold parseNumber. rewrite !Hne by lia.
  cbn [digits]. unfold digit.
  assert ((48 <=? c)%N && (c <=? 57)%N = false) as ->; [|done].
  apply andb_false_iff. rewrite !N.leb_gt. lia.
Qed.

Lemma listener_keeps_what_parses (lines : list jsstring) :
  omap (fun line => if nonblank (trim line) then JSON_parse line else None) lines
  = omap JSON_parse lines.
Proof.
  induction lines as [|line lines IH]; [done|]. cbn [omap list_omap]. rewrite IH.
  destruct (trim line) eqn:E; [|done]. cbn. by rewrite (JSON_parse_blank _ E).
Qed.

(** Bytes below 128 decode each to itself, whatever follows. *)
Lemma toString_ascii_app a b :
  Forall (fun x => (Byte.to_N x < 128)%N) a ->
  toString (a ++ b) = map Byte.to_N a ++ toString b.
Proof.
  unfold toString. induction 1 as [|x a Hx _ IH]; [done|].
  cbn [app map codePoints]. unfold leading.
  replace (Byte.to_N x <=? 127)%N with true by (symmetry; apply N.leb_le; lia).
  cbn [flat_map]. rewrite IH. unfold codeUnits at 1.
  replace (Byte.to_N x <? 65536)%N with true by (symmetry; apply N.ltb_lt; lia).
  done.
Qed.

(** Chunks of bytes below 128: the text they decode to one by one is the
    text of the whole stream. *)
Lemma toString_ascii_concat chunks :
  Forall (Forall (fun x => (Byte.to_N x < 128)%N)) chunks ->
  concat (map toString chunks) = toString (concat chunks).
Proof.
  induction 1 as [|data chunks Hd _ IH]; [done|]. cbn [map concat].
  rewrite toString_ascii_app by done. rewrite IH. f_equal.
  rewrite <- (app_nil_r data) at 1. rewrite toString_ascii_app by done.
  by rewrite app_nil_r.
Qed.

(** The framing of a stream of bytes below 128, cut into chunks anywhere:
    after the last chunk the buffer holds no line feed and is the
    unterminated tail of the stream, and the queue holds, in their order,
    the complete lines of the stream that parse. *)
Lemma feed_ascii id0 chunks :
  Forall (Forall (fun x => (Byte.to_N x < 128)%N)) chunks ->
  let fresh := {| id := id0; buffer := []; responses := []; stdin := []; killed := false |} in
  (LF ∉ buffer (feed chunks fresh))
  /\ buffer (feed chunks fresh) = tail_of (toString (concat chunks))
  /\ responses (feed chunks fresh)
     = omap JSON_parse (complete_lines (toString (concat chunks))).
Proof.
  intros Hascii fresh.
  destruct (feed_text chunks fresh) as [Hb Hr]; [apply not_elem_of_nil|].
  cbn [buffer responses fresh app] in Hb, Hr.
  rewrite toString_ascii_concat in Hb, Hr by done.
  rewrite listener_keeps_what_parses in Hr.
  split; [|done]. rewrite Hb. apply tail_of_no_newline.
Qed.

(** C9 fails where a chunk ends inside a character. The line
    [{"a":"é"}] arrives cut within the two bytes of its é, and each half
    decodes to U+FFFD on its own: after the second chunk the buffer is not
    the unterminated tail of the stream, and after the third the message
    queued is not the complete line of the stream. *)
Theorem on_data_splits_a_character :
  let fresh := {| id := js "s"; buffer := []; responses := []; stdin := []; killed := false |} in
  let first := [x7b; x22; x61; x22; x3a; x22; xc3]%byte in
  let second := [xa9; x22; x7d]%byte in
  let third := [x0a]%byte in
  tail_of (toString (concat [first; second]))
  = [123; 34; 97; 34; 58; 34; 233; 34; 125]%N
  /\ buffer (feed [first; second] fresh)
     = [123; 34; 97; 34; 58; 34; 65533; 65533; 34; 125]%N
  /\ omap JSON_parse (complete_lines (toString (concat [first; second; third])))
     = [JObject [(js "a", JString [233%N])]]
  /\ responses (feed [first; second; third] fresh)
     = [JObject [(js "a", JString [65533; 65533]%N)]].
Proof. vm_compute. repeat split; reflexivity. Qed.

(** *** Waiting for the worker's reply *)

Section Waiting.
Context (schedule : nat -> tick) (r : nat).

(** The wait ends at the first check that finds a message queued or the
    deadline passed, and no later than the 301st sleep. *)
Lemma wait_ends fuel : forall round elapsed σ,
  (100 * N.of_nat round <= elapsed)%N ->
  (round <= 301)%nat ->
  (301 <= round + fuel)%nat ->
  exists k,
    (k + round <= 301)%nat
    /\ (forall j, (j < k)%nat ->
                  responses (objects (after schedule round j σ) r) = []
                  /\ (elapsed + elapsed_after schedule round j <= timeout)%N)
    /\ ((exists first rest,
            responses (objects (after schedule round k σ) r) = first :: rest
            /\ wait schedule r fuel round elapsed σ
               = Some (Message first, after schedule round k σ))
        \/ (responses (objects (after schedule round k σ) r) = []
            /\ (timeout < elapsed + elapsed_after schedule round k)%N
            /\ wait schedule r fuel round elapsed σ
               = Some (Failed 504 "Request timeout", after schedule round k σ))).
Proof.
  unfold timeout.
  assert (forall fuel' round elapsed σ,
             (round <= 301)%nat ->
             responses (objects σ r) <> [] \/ (30000 < elapsed)%N ->
             exists k,
               (k + round <= 301)%nat
               /\ (forall j, (j < k)%nat ->
                      responses (objects (after schedule round j σ) r) = []
                      /\ (elapsed + elapsed_after schedule round j <= 30000)%N)
               /\ ((exists first rest,
                      responses (objects (after schedule round k σ) r) = first :: rest
                      /\ wait schedule r fuel' round elapsed σ
                         = Some (Message first, after schedule round k σ))
                   \/ (responses (objects (after schedule round k σ) r) = []
                       /\ (30000 < elapsed + elapsed_after schedule round k)%N
                       /\ wait schedule r fuel' round elapsed σ
                          = Some (Failed 504 "Request timeout",
                                  after schedule round k σ)))) as Hnow.
  { intros fuel' round elapsed σ Hround Hstop. exists 0%nat.
    split; [lia|]. split; [intros j Hj; lia|]. cbn [after elapsed_after].
    rewrite N.add_0_r.
    destruct (responses (objects σ r)) as [|first rest] eqn:Hqueue.
    - right. destruct Hstop as [?|Hlate]; [done|].
      repeat split; [done|].
      destruct fuel'; cbn [wait]; rewrite Hqueue; unfold timeout;
        apply N.ltb_lt in Hlate; by rewrite Hlate.
    - left. exists first, rest. split; [done|].
      destruct fuel'; cbn [wait]; by rewrite Hqueue. }
  induction fuel as [|fuel IH]; intros round elapsed σ Helapsed Hround Hfuel.
  - apply Hnow; [done|]. right. lia.
  - destruct (responses (objects σ r)) as [|first rest] eqn:Hqueue.
    2:{ apply Hnow; [done|]. left. by rewrite Hqueue. }
    destruct (30000 <? elapsed)%N eqn:Hlate.
    { apply Hnow; [done|]. right. by apply N.ltb_lt. }
    apply N.ltb_ge in Hlate as Hlate'.
    destruct (IH (S round) (elapsed + (100 + slack (schedule round)))%N
                (foldl handle σ (events (schedule round)))) as (k & Hk & Hbefore & Hend);
      [lia|lia|lia|].
    exists (S k). split; [lia|]. split.
    + intros [|j] Hj; cbn [after elapsed_after].
      * split; [done|lia].
      * destruct (Hbefore j ltac:(lia)) as [Hq He]. split; [done|lia].
    + cbn [after elapsed_after wait]. rewrite Hqueue. unfold timeout. rewrite Hlate.
      destruct Hend as [(first & rest & Hq & Hw)|(Hq & He & Hw)].
      * left. by exists first, rest.
      * right. split; [done|]. split; [lia|done].
Qed.

(** What the workers do leaves what was written to a worker as it is. *)
Lemma handle_stdin σ e : stdin (objects (handle σ e) r) = stdin (objects σ r).
Proof.
  destruct e as [r' data|r']; cbn [handle objects]; [|done].
  unfold store. by destruct (r =? r')%nat eqn:E; [apply Nat.eqb_eq in E as ->|].
Qed.

(** A worker that writes nothing leaves its queue as it is. *)
Lemma handle_quiet σ e :
  (forall data, e <> Data r data) ->
  responses (objects (handle σ e) r) = responses (objects σ r).
Proof.
  intros Hquiet. destruct e as [r' data|r']; cbn [handle objects]; [|done].
  unfold store. destruct (r =? r')%nat eqn:E; [|done].
  apply Nat.eqb_eq in E as ->. by destruct (Hquiet data).
Qed.

Lemma after_quiet k : forall from σ,
  (forall i data, Data r data ∉ events (schedule i)) ->
  responses (objects (after schedule from k σ) r) = responses (objects σ r).
Proof.
  induction k as [|k IH]; intros from σ Hquiet; [done|]. cbn [after].
  rewrite IH by done. specialize (Hquiet from).
  induction (events (schedule from)) as [|e es IHes] using rev_ind; [done|].
  rewrite foldl_app. cbn [foldl]. rewrite handle_quiet.
  - apply IHes. intros data Hin. apply (Hquiet data), elem_of_app. by left.
  - intros data ->. apply (Hquiet data), elem_of_app. right. by constructor.
Qed.

End Waiting.

(** C6. A message sent to a session that is not in the table is answered
    404. Sent to a session that is there, a message is written to the worker
    after the queue was cleared; the queue is then checked at once and after
    every sleep of 100 ms (or longer, as the scheduler has it), and the call
    returns at the first check that finds a message queued, with the first
    message of the queue, or that finds none and more than 30000 ms gone,
    with the status 504; that check comes after 301 sleeps at the latest.
    A worker that writes nothing more, as one that exited does, gets the
    call the status 504. *)
Theorem Send_replies (schedule : nat -> tick) (σ : state) (sessionId : jsstring) :
  match activeSessions σ !! sessionId with
  | None =>
      forall fuel message,
        Send schedule fuel sessionId message σ = Some (Failed 404 "Session not found", σ)
  | Some r =>
      forall m fuel,
        truthy m = true ->
        (301 <= fuel)%nat ->
        let waiting := sent r m σ in
        let queue k := responses (objects (after schedule 0 k waiting) r) in
        stdin (objects waiting r) = stdin (objects σ r) ++ [m]
        /\ responses (objects waiting r) = []
        /\ (exists k,
              (k <= 301)%nat
              /\ (forall j, (j < k)%nat ->
                            queue j = [] /\ (elapsed_after schedule 0 j <= timeout)%N)
              /\ ((exists first rest,
                      queue k = first :: rest
                      /\ Send schedule fuel sessionId (Some m) σ
                         = Some (Message first, after schedule 0 k waiting))
                  \/ (queue k = []
                      /\ (timeout < elapsed_after schedule 0 k)%N
                      /\ Send schedule fuel sessionId (Some m) σ
                         = Some (Failed 504 "Request timeout",
                                 after schedule 0 k waiting))))
        /\ ((forall i data, Data r data ∉ events (schedule i)) ->
            exists σ', Send schedule fuel sessionId (Some m) σ
                       = Some (Failed 504 "Request timeout", σ'))
  end.
Proof.
  unfold Send. destruct (activeSessions σ !! sessionId) as [r|]; [|done].
  intros m fuel Hm Hfuel. rewrite Hm. set (waiting := sent r m σ).
  assert (stdin (objects waiting r) = stdin (objects σ r) ++ [m]
          /\ responses (objects waiting r) = []) as [Hin Hq].
  { unfold waiting, sent, store. cbn [objects]. by rewrite Nat.eqb_refl. }
  destruct (wait_ends schedule r fuel 0 0%N waiting) as (k & Hk & Hbefore & Hend);
    [lia|lia|lia|].
  repeat split; [done|done| |].
  - exists k. split; [lia|]. split; [exact Hbefore|]. exact Hend.
  - intros Hquiet.
    destruct Hend as [(first & rest & Hqk & Hw)|(Hqk & He & Hw)]; [|by eauto].
    rewrite (after_quiet schedule r k 0 waiting Hquiet), Hq in Hqk. done.
Qed.

(** A worker that answers during the second sleep, and a worker that
    exits during the first and answers nothing. *)
Example Send_examples :
  let σ := snd (Open (js "7f3c") empty_state) in
  let hello := JObject [(js "method", JString (js "ping"))] in
  let answers (i : nat) :=
    match i with
    | 1%nat => {| slack := 3; events := [Data 0 [x7b; x7d; x0a]%byte] |}
    | _ => {| slack := 0; events := [] |}
    end in
  let exits (i : nat) :=
    match i with
    | O => {| slack := 0; events := [Exit 0] |}
    | _ => {| slack := 0; events := [] |}
    end in
  fst <$> Send answers 301 (js "7f3c") (Some hello) σ = Some (Message (JObject []))
  /\ fst <$> Send exits 301 (js "7f3c") (Some hello) σ
     = Some (Failed 504 "Request timeout")
  /\ fst <$> Send exits 301 (js "0000") (Some hello) σ
     = Some (Failed 404 "Session not found")
  /\ fst <$> Send exits 301 (js "7f3c") None σ = Some (Failed 400 "Message is required").
Proof. vm_compute. repeat split; reflexivity. Qed.

(** The theorem at a session whose worker exits during the first sleep. *)
Lemma Send_replies_witness :
  exists σ',
    Send (fun i => match i with
                   | O => {| slack := 0; events := [Exit 0] |}
                   | _ => {| slack := 0; events := [] |}
                   end)
         301 (js "7f3c") (Some (JObject [])) (snd (Open (js "7f3c") empty_state))
    = Some (Failed 504 "Request timeout", σ').
Proof.
  pose proof (Send_replies
                (fun i => match i with
                          | O => {| slack := 0; events := [Exit 0] |}
                          | _ => {| slack := 0; events := [] |}
                          end)
                (snd (Open (js "7f3c") empty_state)) (js "7f3c")) as H.
  assert (activeSessions (snd (Open (js "7f3c") empty_state)) !! js "7f3c" = Some 0%nat)
    as E by (vm_compute; reflexivity).
  rewrite E in H.
  destruct (H (JObject []) 301%nat eq_refl (le_n _)) as (_ & _ & _ & Hquiet).
  apply Hquiet. intros [|i] data Hin; cbn in Hin.
  - apply list_elem_of_singleton in Hin. discriminate Hin.
  - by apply elem_of_nil in Hin.
Defined.

End BridgeFacts.

(** ** The other endpoints of the bridge *)

Module GatewayFacts.
Import JS JSFacts Bridge BridgeFacts Gateway.

(** *** Chunks that end between characters *)

Lemma codePoints_app a : forall pending b,
  carried a pending = None ->
  codePoints (a ++ b) pending = codePoints a pending ++ codePoints b None.
Proof.
  induction a as [|x a IH]; intros pending b Hc.
  - cbn in Hc. by subst.
  - cbn [app codePoints carried] in Hc |- *.
    destruct pending as [[[[n cp] lower] upper]|].
    + destruct ((lower <=? x)%N && (x <=? upper)%N).
      * destruct n as [|[|n]]; cbn; by rewrite IH.
      * destruct (leading x); cbn; by rewrite IH.
    + destruct (leading x); cbn; by rewrite IH.
Qed.

Lemma toString_whole_app a b :
  whole a = true -> toString (a ++ b) = toString a ++ toString b.
Proof.
  unfold whole, toString. intros Hw.
  destruct (carried (map Byte.to_N a) None) eqn:Hc; [done|].
  by rewrite map_app, (codePoints_app _ _ _ Hc), flat_map_app.
Qed.

Lemma toString_whole_concat chunks :
  Forall (fun data => whole data = true) chunks ->
  concat (map toString chunks) = toString (concat chunks).
Proof.
  induction 1 as [|data chunks Hd _ IH]; [done|]. cbn [map concat].
  by rewrite toString_whole_app, IH.
Qed.

(** X1. The framing of the worker's output holds whenever no chunk ends
    within a character: after the chunks the buffer of a fresh session holds
    no line feed and is the unterminated tail of the stream decoded as a
    whole, and the queue holds, in their order, the complete lines of the
    stream that parse. *)
Theorem feed_whole id0 chunks :
  Forall (fun data => whole data = true) chunks ->
  let fresh := {| id := id0; buffer := []; responses := []; stdin := []; killed := false |} in
  (LF ∉ buffer (feed chunks fresh))
  /\ buffer (feed chunks fresh) = tail_of (toString (concat chunks))
  /\ responses (feed chunks fresh)
     = omap JSON_parse (complete_lines (toString (concat chunks))).
Proof.
  intros Hwhole fresh.
  destruct (feed_text chunks fresh) as [Hb Hr]; [apply not_elem_of_nil|].
  cbn [buffer responses fresh app] in Hb, Hr.
  rewrite toString_whole_concat in Hb, Hr by done.
  rewrite listener_keeps_what_parses in Hr.
  split; [|done]. rewrite Hb. apply tail_of_no_newline.
Qed.

(** The theorem at a line cut after its é, not within it. *)
Lemma feed_whole_witness :
  let fresh := {| id := js "s"; buffer := []; responses := []; stdin := []; killed := false |} in
  let chunks := [[x7b; x22; x61; x22; x3a; x22; xc3; xa9]; [x22; x7d; x0a]]%byte in
  (LF ∉ buffer (feed chunks fresh))
  /\ buffer (feed chunks fresh) = tail_of (toString (concat chunks))
  /\ responses (feed chunks fresh)
     = omap JSON_parse (complete_lines (toString (concat chunks))).
Proof.
  apply (feed_whole (js "s")
           [[x7b; x22; x61; x22; x3a; x22; xc3; xa9]; [x22; x7d; x0a]]%byte).
  repeat constructor.
Defined.

(** *** The table and the session objects *)

Lemma consistent_objects σ σ' :
  activeSessions σ' = activeSessions σ ->
  spawned σ' = spawned σ ->
  (forall r, id (objects σ' r) = id (objects σ r)) ->
  consistent σ -> consistent σ'.
Proof.
  intros Ht Hs Hid Hσ sessionId r Hr. rewrite Ht in Hr.
  destruct (Hσ _ _ Hr) as [H1 H2]. by rewrite Hid, Hs.
Qed.

Lemma consistent_delete σ sessionId :
  consistent σ ->
  consistent {| activeSessions := delete sessionId (activeSessions σ);
                objects := objects σ; spawned := spawned σ |}.
Proof.
  intros Hσ k r Hr. cbn in Hr |- *.
  apply lookup_delete_Some in Hr as [_ Hr]. by apply Hσ.
Qed.

Lemma consistent_handle σ e : consistent σ -> consistent (handle σ e).
Proof.
  destruct e as [r data|r]; cbn [handle].
  - apply consistent_objects; [done|done|]. intros r'. cbn [objects]. unfold store.
    destruct (r' =? r)%nat eqn:E; [|done]. apply Nat.eqb_eq in E. by subst.
  - apply consistent_delete.
Qed.

Lemma consistent_events es : forall σ, consistent σ -> consistent (foldl handle σ es).
Proof.
  induction es as [|e es IH]; intros σ Hσ; [done|].
  cbn [foldl]. by apply IH, consistent_handle.
Qed.

Lemma consistent_sent r m σ : consistent σ -> consistent (sent r m σ).
Proof.
  apply consistent_objects; [done|done|]. intros r'. cbn [sent objects]. unfold store.
  destruct (r' =? r)%nat eqn:E; [|done]. apply Nat.eqb_eq in E. by subst.
Qed.

Lemma consistent_wait schedule r fuel : forall round elapsed σ out σ',
  consistent σ ->
  wait schedule r fuel round elapsed σ = Some (out, σ') ->
  consistent σ'.
Proof.
  induction fuel as [|fuel IH]; intros round elapsed σ out σ' Hσ; cbn [wait].
  - destruct (responses (objects σ r)); [|by intros [= _ <-]].
    destruct (timeout <? elapsed)%N; [by intros [= _ <-]|done].
  - destruct (responses (objects σ r)); [|by intros [= _ <-]].
    destruct (timeout <? elapsed)%N; [by intros [= _ <-]|].
    apply IH. by apply consistent_events.
Qed.

Lemma consistent_insert σ sessionId :
  consistent σ ->
  consistent
    {| activeSessions := <[sessionId := spawned σ]> (activeSessions σ);
       objects := store (spawned σ)
                    {| id := sessionId; buffer := []; responses := []; stdin := [];
                       killed := false |} (objects σ);
       spawned := S (spawned σ) |}.
Proof.
  intros Hσ k r Hr. cbn in Hr |- *. unfold store.
  apply lookup_insert_Some in Hr as [[<- <-]|[Hk Hr]].
  - rewrite Nat.eqb_refl. cbn. split; [done|lia].
  - destruct (Hσ _ _ Hr) as [H1 H2].
    destruct (r =? spawned σ)%nat eqn:E; [apply Nat.eqb_eq in E; lia|].
    split; [done|lia].
Qed.

(** What the handler of SIGTERM leaves of a session object. *)
Lemma ShutdownAll_objects σ r :
  objects (ShutdownAll σ) r
  = if bool_decide (r ∈ (map_to_list (activeSessions σ)).*2)
    then kill (objects σ r) else objects σ r.
Proof.
  unfold ShutdownAll. cbn [objects].
  induction (map_to_list (activeSessions σ)) as [|[k r'] l IH]; [done|].
  cbn [foldr fmap list_fmap snd]. unfold store at 1.
  destruct (r =? r')%nat eqn:E.
  - apply Nat.eqb_eq in E. subst r'. rewrite IH.
    rewrite (bool_decide_true (r ∈ r :: l.*2)) by (by left).
    by destruct (bool_decide _).
  - apply Nat.eqb_neq in E. rewrite IH.
    destruct (decide (r ∈ l.*2)) as [Hin|Hout].
    + rewrite (bool_decide_true _ Hin), (bool_decide_true (r ∈ r' :: l.*2)); [done|by right].
    + rewrite (bool_decide_false _ Hout), (bool_decide_false (r ∈ r' :: l.*2)); [done|].
      by intros [?|?]%elem_of_cons.
Qed.

Lemma consistent_Open σ sessionId : consistent σ -> consistent (snd (Open sessionId σ)).
Proof. apply consistent_insert. Qed.

Lemma consistent_Close σ sessionId : consistent σ -> consistent (snd (Close sessionId σ)).
Proof.
  intros Hσ. unfold Close. destruct (activeSessions σ !! sessionId) as [r|]; [|done].
  cbn [snd].
  apply (consistent_objects
           {| activeSessions := delete sessionId (activeSessions σ);
              objects := objects σ; spawned := spawned σ |});
    [done|done| |by apply consistent_delete].
  intros r'. cbn [objects]. unfold store.
  destruct (r' =? r)%nat eqn:E; [|done]. apply Nat.eqb_eq in E. by subst.
Qed.

Lemma consistent_Send σ schedule fuel sessionId message out σ' :
  consistent σ ->
  Send schedule fuel sessionId message σ = Some (out, σ') -> consistent σ'.
Proof.
  intros Hσ. unfold Send. destruct (activeSessions σ !! sessionId) as [r|];
    [|by intros [= _ <-]].
  destruct message as [m|]; [|by intros [= _ <-]].
  destruct (truthy m); [|by intros [= _ <-]].
  by apply consistent_wait, consistent_sent.
Qed.

Lemma consistent_Messages σ schedule fuel sessionId message out σ' :
  consistent σ ->
  Messages schedule fuel sessionId message σ = Some (out, σ') -> consistent σ'.
Proof.
  intros Hσ. unfold Messages. destruct sessionId as [sessionId|]; [|by intros [= _ <-]].
  destruct (nonblank sessionId); [|by intros [= _ <-]].
  destruct (activeSessions σ !! sessionId) as [r|].
  - by apply consistent_wait, consistent_sent.
  - by apply consistent_wait, consistent_sent, consistent_insert.
Qed.

Lemma consistent_ShutdownAll σ : consistent σ -> consistent (ShutdownAll σ).
Proof.
  apply consistent_objects; [done|done|]. intros r. rewrite ShutdownAll_objects.
  by destruct (bool_decide _).
Qed.

(** X2. Every entry of the session table points to a session object that
    carries the entry's key as its id: this holds of the empty table and is
    kept by every operation of the bridge and by every event of a worker. *)
Theorem consistent_invariant :
  consistent empty_state
  /\ (forall σ sessionId, consistent σ -> consistent (snd (Open sessionId σ)))
  /\ (forall σ sessionId, consistent σ -> consistent (snd (Close sessionId σ)))
  /\ (forall σ e, consistent σ -> consistent (handle σ e))
  /\ (forall σ schedule fuel sessionId message out σ',
        consistent σ ->
        Send schedule fuel sessionId message σ = Some (out, σ') -> consistent σ')
  /\ (forall σ schedule fuel sessionId message out σ',
        consistent σ ->
        Messages schedule fuel sessionId message σ = Some (out, σ') -> consistent σ')
  /\ (forall σ, consistent σ -> consistent (ShutdownAll σ)).
Proof.
  split; [done|].
  split; [exact consistent_Open|].
  split; [exact consistent_Close|].
  split; [exact consistent_handle|].
  split; [intros; by eapply consistent_Send|].
  split; [intros; by eapply consistent_Messages|].
  exact consistent_ShutdownAll.
Qed.

(** X3. Opening a session under an identifier that is not in the table
    registers it and nothing else: the reply carries the identifier, the
    health check counts one session more, the listing names it, no session
    object made before is touched, and closing it gives the table back as it
    was. *)
Theorem Open_registers σ sessionId :
  activeSessions σ !! sessionId = None ->
  let σ1 := snd (Open sessionId σ) in
  fst (Open sessionId σ) = SessionId sessionId
  /\ Health σ1 = S (Health σ)
  /\ (forall ids, List σ1 = Sessions ids -> sessionId ∈ ids)
  /\ (forall k, k ≠ sessionId -> activeSessions σ1 !! k = activeSessions σ !! k)
  /\ (forall r, (r < spawned σ)%nat -> objects σ1 r = objects σ r)
  /\ fst (Close sessionId σ1) = Closed
  /\ activeSessions (snd (Close sessionId σ1)) = activeSessions σ
  /\ Health (snd (Close sessionId σ1)) = Health σ.
Proof.
  intros Hfresh σ1. unfold Health, Close. cbn [Open fst snd activeSessions objects σ1].
  rewrite lookup_insert_eq. cbn [fst snd activeSessions].
  rewrite (delete_insert_id _ _ _ Hfresh).
  split; [done|]. split; [by apply map_size_insert_None|].
  split.
  { intros ids [= <-]. apply list_elem_of_fmap. exists (sessionId, spawned σ).
    split; [done|]. apply elem_of_map_to_list. apply lookup_insert_eq. }
  split; [intros k Hk; by apply lookup_insert_ne|].
  split; [|done].
  intros r Hr. unfold store.
  destruct (r =? spawned σ)%nat eqn:E; [apply Nat.eqb_eq in E; lia|done].
Qed.

(** The theorem at the first session of a bridge just started. *)
Lemma Open_registers_witness :
  fst (Open (js "7f3c") empty_state) = SessionId (js "7f3c")
  /\ Health (snd (Open (js "7f3c") empty_state)) = S (Health empty_state)
  /\ (forall ids, List (snd (Open (js "7f3c") empty_state)) = Sessions ids ->
                  js "7f3c" ∈ ids)
  /\ (forall k, k ≠ js "7f3c" ->
                activeSessions (snd (Open (js "7f3c") empty_state)) !! k
                = activeSessions empty_state !! k)
  /\ (forall r, (r < spawned empty_state)%nat ->
                objects (snd (Open (js "7f3c") empty_state)) r = objects empty_state r)
  /\ fst (Close (js "7f3c") (snd (Open (js "7f3c") empty_state))) = Closed
  /\ activeSessions (snd (Close (js "7f3c") (snd (Open (js "7f3c") empty_state))))
     = activeSessions empty_state
  /\ Health (snd (Close (js "7f3c") (snd (Open (js "7f3c") empty_state))))
     = Health empty_state.
Proof. apply (Open_registers empty_state (js "7f3c")). reflexivity. Defined.

(** X4. When the worker of a session exits, the session leaves the table:
    the health check counts one session less, the listing does not name it,
    a message sent to it and a request to close it are answered 404, and the
    session objects stay as they were. *)
Theorem worker_exit σ sessionId r :
  consistent σ ->
  activeSessions σ !! sessionId = Some r ->
  let σ' := handle σ (Exit r) in
  activeSessions σ' = delete sessionId (activeSessions σ)
  /\ S (Health σ') = Health σ
  /\ (forall ids, List σ' = Sessions ids -> sessionId ∉ ids)
  /\ (forall schedule fuel message,
        Send schedule fuel sessionId message σ'
        = Some (Failed 404 "Session not found", σ'))
  /\ Close sessionId σ' = (Failed 404 "Session not found", σ')
  /\ objects σ' = objects σ.
Proof.
  intros Hσ Hr σ'. destruct (Hσ _ _ Hr) as [Hid _].
  assert (activeSessions σ' = delete sessionId (activeSessions σ)) as Ht.
  { unfold σ'. cbn [handle activeSessions]. by rewrite Hid. }
  split; [done|]. split.
  { unfold Health. rewrite Ht, map_size_delete, Hr.
    assert (size (activeSessions σ) ≠ 0%nat); [|lia].
    intros E%map_size_empty_inv. by rewrite E in Hr. }
  split.
  { intros ids Hl. unfold List in Hl. rewrite Ht in Hl. injection Hl as <-.
    intros ((k & r') & E & Hin%elem_of_map_to_list)%list_elem_of_fmap.
    cbn in E. subst k. by rewrite lookup_delete_eq in Hin. }
  split.
  { intros schedule fuel message. unfold Send. by rewrite Ht, lookup_delete_eq. }
  split; [|done]. unfold Close. by rewrite Ht, lookup_delete_eq.
Qed.

(** The theorem at a session just opened. *)
Lemma worker_exit_witness :
  let σ := snd (Open (js "7f3c") empty_state) in
  let σ' := handle σ (Exit 0) in
  activeSessions σ' = delete (js "7f3c") (activeSessions σ)
  /\ S (Health σ') = Health σ
  /\ (forall ids, List σ' = Sessions ids -> js "7f3c" ∉ ids)
  /\ (forall schedule fuel message,
        Send schedule fuel (js "7f3c") message σ'
        = Some (Failed 404 "Session not found", σ'))
  /\ Close (js "7f3c") σ' = (Failed 404 "Session not found", σ')
  /\ objects σ' = objects σ.
Proof.
  apply (worker_exit (snd (Open (js "7f3c") empty_state)) (js "7f3c") 0).
  - by apply consistent_Open.
  - reflexivity.
Defined.

(** *** The messages endpoint *)

Lemma wait_out schedule r fuel : forall round elapsed σ out σ',
  wait schedule r fuel round elapsed σ = Some (out, σ') ->
  out = Failed 504 "Request timeout" \/ exists first, out = Message first.
Proof.
  induction fuel as [|fuel IH]; intros round elapsed σ out σ'; cbn [wait].
  - destruct (responses (objects σ r)); [|intros [= <- _]; eauto].
    destruct (timeout <? elapsed)%N; [intros [= <- _]; eauto|done].
  - destruct (responses (objects σ r)); [|intros [= <- _]; eauto].
    destruct (timeout <? elapsed)%N; [intros [= <- _]; eauto|]. apply IH.
Qed.

(** X5. The messages endpoint answers for any session identifier that is
    not empty: on a session of the table it does what a message sent to that
    session does, and on an identifier that is not in the table it first
    makes the session, as opening one does, and then does the same; so it
    never answers 404, only with the worker's first message or with 504. *)
Theorem Messages_as_Send schedule fuel sessionId m σ :
  nonblank sessionId = true ->
  truthy m = true ->
  Messages schedule fuel (Some sessionId) m σ
  = Send schedule fuel sessionId (Some m)
         (match activeSessions σ !! sessionId with
          | Some _ => σ
          | None => snd (Open sessionId σ)
          end)
  /\ (forall out σ',
        Messages schedule fuel (Some sessionId) m σ = Some (out, σ') ->
        out = Failed 504 "Request timeout" \/ exists first, out = Message first).
Proof.
  intros Hid Hm. unfold Messages. rewrite Hid. split.
  - unfold Send. destruct (activeSessions σ !! sessionId) as [r|] eqn:Hr.
    + by rewrite Hr, Hm.
    + cbn [Open snd activeSessions]. by rewrite lookup_insert_eq, Hm.
  - intros out σ'. destruct (activeSessions σ !! sessionId) as [r|]; apply wait_out.
Qed.

(** The theorem at a message for a session that does not exist yet, whose
    worker answers during the first sleep. *)
Lemma Messages_as_Send_witness :
  let schedule := fun _ : nat =>
    {| slack := 0; events := [Data 0 [x7b; x7d; x0a]%byte] |} in
  Messages schedule 301 (Some (js "s1")) (JObject []) empty_state
  = Send schedule 301 (js "s1") (Some (JObject [])) (snd (Open (js "s1") empty_state))
  /\ (forall out σ',
        Messages schedule 301 (Some (js "s1")) (JObject []) empty_state = Some (out, σ') ->
        out = Failed 504 "Request timeout" \/ exists first, out = Message first).
Proof.
  apply (Messages_as_Send
           (fun _ => {| slack := 0; events := [Data 0 [x7b; x7d; x0a]%byte] |})
           301 (js "s1") (JObject []) empty_state); reflexivity.
Defined.

(** A worker that writes nothing: the wait runs its 301 sleeps and ends
    with the state it began in. *)
Lemma wait_quiet r σ :
  responses (objects σ r) = [] ->
  forall fuel round,
    (round + fuel = 301)%nat ->
    wait (fun _ => {| slack := 0; events := [] |}) r fuel round (100 * N.of_nat round) σ
    = Some (Failed 504 "Request timeout", σ).
Proof.
  intros Hq. induction fuel as [|fuel IH]; intros round Hround; cbn [wait]; rewrite Hq.
  - replace (timeout <? 100 * N.of_nat round)%N with true; [done|].
    symmetry. apply N.ltb_lt. unfold timeout. lia.
  - replace (timeout <? 100 * N.of_nat round)%N with false.
    2:{ symmetry. apply N.ltb_ge. unfold timeout. lia. }
    cbn [slack events foldl].
    replace (100 * N.of_nat round + (100 + 0))%N with (100 * N.of_nat (S round))%N by lia.
    apply IH. lia.
Qed.

(** X6. The exit of a worker removes the table's entry under its session's
    identifier, whichever session holds that entry by then. A session is
    closed, the messages endpoint makes a new one under the same identifier,
    and the exit of the first worker, which follows its kill, takes the new
    session out of the table while its worker runs on. *)
Theorem late_exit_removes_newer_session σ sessionId r m :
  consistent σ ->
  activeSessions σ !! sessionId = Some r ->
  nonblank sessionId = true ->
  let quiet := fun _ : nat => {| slack := 0; events := [] |} in
  exists σ2,
    Messages quiet 301 (Some sessionId) m (snd (Close sessionId σ))
    = Some (Failed 504 "Request timeout", σ2)
    /\ activeSessions σ2 !! sessionId = Some (spawned σ)
    /\ killed (objects σ2 r) = true
    /\ killed (objects σ2 (spawned σ)) = false
    /\ activeSessions (handle σ2 (Exit r)) !! sessionId = None
    /\ killed (objects (handle σ2 (Exit r)) (spawned σ)) = false.
Proof.
  intros Hσ Hr Hid quiet. destruct (Hσ _ _ Hr) as [Hown Hlt].
  unfold Messages, Close. rewrite Hid, Hr. cbn [snd activeSessions objects spawned].
  rewrite lookup_delete_eq.
  eexists. split.
  { apply (wait_quiet _ _) with (round := 0%nat); [|done].
    cbn [sent objects]. unfold store. by rewrite Nat.eqb_refl. }
  cbn [sent activeSessions objects handle]. unfold store.
  rewrite Nat.eqb_refl.
  replace (r =? spawned σ)%nat with false by (symmetry; apply Nat.eqb_neq; lia).
  rewrite Nat.eqb_refl. cbn [id killed]. rewrite Hown.
  rewrite lookup_insert_eq, lookup_delete_eq. done.
Qed.

(** The theorem at a session just opened. *)
Lemma late_exit_removes_newer_session_witness :
  exists σ2,
    Messages (fun _ => {| slack := 0; events := [] |}) 301 (Some (js "s1")) (JObject [])
             (snd (Close (js "s1") (snd (Open (js "s1") empty_state))))
    = Some (Failed 504 "Request timeout", σ2)
    /\ activeSessions σ2 !! js "s1" = Some (spawned (snd (Open (js "s1") empty_state)))
    /\ killed (objects σ2 0) = true
    /\ killed (objects σ2 (spawned (snd (Open (js "s1") empty_state)))) = false
    /\ activeSessions (handle σ2 (Exit 0)) !! js "s1" = None
    /\ killed (objects (handle σ2 (Exit 0)) (spawned (snd (Open (js "s1") empty_state))))
       = false.
Proof.
  apply (late_exit_removes_newer_session (snd (Open (js "s1") empty_state)) (js "s1") 0
           (JObject [])).
  - by apply consistent_Open.
  - reflexivity.
  - reflexivity.
Defined.

(** *** Sessions side by side *)

Lemma handle_other σ r e : of_worker r e = false -> objects (handle σ e) r = objects σ r.
Proof.
  destruct e as [r' data|r']; cbn [of_worker handle objects]; [|done].
  intros E. unfold store. rewrite Nat.eqb_sym. by rewrite E.
Qed.

Lemma handle_same σ1 σ2 r e :
  objects σ1 r = objects σ2 r -> objects (handle σ1 e) r = objects (handle σ2 e) r.
Proof.
  intros H. destruct e as [r' data|r']; cbn [handle objects]; [|done].
  unfold store. destruct (r =? r')%nat eqn:E; [|done].
  apply Nat.eqb_eq in E. subst r'. by rewrite H.
Qed.

Lemma events_only r es : forall σ1 σ2,
  objects σ1 r = objects σ2 r ->
  objects (foldl handle σ1 es) r
  = objects (foldl handle σ2 (List.filter (of_worker r) es)) r.
Proof.
  induction es as [|e es IH]; intros σ1 σ2 H; [done|].
  cbn [foldl List.filter]. destruct (of_worker r e) eqn:E.
  - cbn [foldl]. by apply IH, handle_same.
  - apply IH. by rewrite handle_other.
Qed.

Lemma wait_only schedule r fuel : forall round elapsed σ1 σ2,
  objects σ1 r = objects σ2 r ->
  fst <$> wait schedule r fuel round elapsed σ1
  = fst <$> wait (only r schedule) r fuel round elapsed σ2.
Proof.
  induction fuel as [|fuel IH]; intros round elapsed σ1 σ2 H; cbn [wait]; rewrite <- H.
  - destruct (responses (objects σ1 r)); [|done]. by destruct (timeout <? elapsed)%N.
  - destruct (responses (objects σ1 r)); [|done].
    destruct (timeout <? elapsed)%N; [done|].
    cbn [only slack events]. by apply IH, events_only.
Qed.

(** X7. What a message sent to a session is answered depends on the worker
    of that session alone: the output and the exits of the workers of other
    sessions, whenever they come, change neither the reply nor the moment it
    is given. *)
Theorem Send_ignores_other_workers schedule fuel sessionId message σ :
  fst <$> Send schedule fuel sessionId message σ
  = match activeSessions σ !! sessionId with
    | Some r => fst <$> Send (only r schedule) fuel sessionId message σ
    | None => Some (Failed 404 "Session not found")
    end.
Proof.
  unfold Send. destruct (activeSessions σ !! sessionId) as [r|]; [|done].
  destruct message as [m|]; [|done]. destruct (truthy m); [|done].
  by apply wait_only.
Qed.

(** X8. The handler of SIGTERM kills the worker of every session of the
    table and touches nothing else: the table keeps its entries, a session
    object the table points to differs only by being killed, and a session
    object it does not point to stays as it was. *)
Theorem ShutdownAll_kills σ :
  activeSessions (ShutdownAll σ) = activeSessions σ
  /\ (forall sessionId r,
        activeSessions σ !! sessionId = Some r ->
        objects (ShutdownAll σ) r = kill (objects σ r))
  /\ (forall r,
        (forall sessionId, activeSessions σ !! sessionId ≠ Some r) ->
        objects (ShutdownAll σ) r = objects σ r).
Proof.
  split; [done|]. split.
  - intros sessionId r Hr. rewrite ShutdownAll_objects, bool_decide_true; [done|].
    apply list_elem_of_fmap. exists (sessionId, r). split; [done|].
    by apply elem_of_map_to_list.
  - intros r Hnone. rewrite ShutdownAll_objects, bool_decide_false; [done|].
    intros ((k & r') & E & Hin%elem_of_map_to_list)%list_elem_of_fmap.
    cbn in E. subst r'. by apply (Hnone k).
Qed.

End GatewayFacts.

(** ** The tools, one by one *)

Module ToolsFacts.
Import JS JSFacts Classifier ClassifierFacts Network NetworkFacts Engine EngineFacts Tools.

(** *** The rhythm of the loops *)


Lemma beats_S a b k : beats a b (S k) = a :: b :: beats a b k.
Proof. done. Qed.

Lemma beats_shift a b k : a :: beats b a k = beats a b k ++ [a].
Proof.
  induction k as [|k IH]; [done|]. rewrite !beats_S. cbn [app]. by rewrite <- IH.
Qed.





(** *** Failures *)

(** The resolver turns down the names every object inherits, and no other:
    none of them is a short name of the table. *)
Lemma getNetworkUrl_throws n :
  getNetworkUrl n
  = if existsb (str_eqb n) inherited then throw TypeError
    else ok (dropTrailingSlash
               (let host := default n (lookup n knownNetworks) in
                if hasScheme host then host else js "https://" ++ host)).
Proof.
  unfold getNetworkUrl, hasScheme.
  destruct (existsb (str_eqb n) inherited) eqn:E.
  - apply existsb_exists in E as (k & Hin & Hk%str_eqb_eq). subst k.
    unfold inherited in Hin. cbn [map In] in Hin.
    repeat (destruct Hin as [<-|Hin]; [vm_compute; reflexivity|]). done.
  - destruct (lookup n knownNetworks) as [host|]; cbn [mbind result_bind default];
      by destruct (startsWith _ (js "http://")), (startsWith _ (js "https://")).
Qed.

Lemma createHttpClient_throws network access_token e :
  createHttpClient network access_token = throw e ->
  getNetworkUrl network = throw e.
Proof.
  unfold createHttpClient. destruct (getNetworkUrl network); cbn [mbind result_bind];
    [done|by intros [= ->]].
Qed.

(** The frame of every tool: the client is made first, outside the [try];
    what is thrown inside the [try] comes out with the tool's words before
    it. *)
Lemma tool_fails {A} network access_token (body : client -> M A) (prefix : string)
    answers trace e trace' :
  (c ← lift (createHttpClient network access_token);
   attempt (body c) (fun error => raise (Error (Lit prefix :: exn_message error))))
    answers trace
  = (throw e, trace') ->
  (getNetworkUrl network = throw e /\ trace' = trace)
  \/ exists m, e = Error (Lit prefix :: m).
Proof.
  run. destruct (createHttpClient network access_token) as [c|e0] eqn:Hc; cbn beta iota.
  - destruct (body c answers trace) as [[a|e0] t]; [done|].
    intros [= <- _]. eauto.
  - intros [= <- <-]. left. by apply createHttpClient_throws in Hc.
Qed.

(** X10. A tool fails in one of two ways. Either the network does not
    resolve: the resolver's exception comes out as it is, and no request was
    sent. Or the failure carries the words of the tool before its message. *)
Theorem failures_name_the_tool (a : Args.t) answers trace e trace' :
  let unresolved := getNetworkUrl (Args.network a) = throw e /\ trace' = trace in
  let says prefix := exists m, e = Error (Lit prefix :: m) in
  (queryTable (Some a) answers trace = (throw e, trace') ->
   unresolved \/ says "Failed to query table: "%string)
  /\ (sqlSearch (Some a) answers trace = (throw e, trace') ->
      unresolved \/ says "Failed to execute SQL query: "%string)
  /\ (listCollections (Some a) answers trace = (throw e, trace') ->
      unresolved \/ says "Failed to list collections: "%string)
  /\ (listTables (Some a) answers trace = (throw e, trace') ->
      unresolved \/ says "Failed to list tables: "%string)
  /\ (getSchemaFields (Some a) answers trace = (throw e, trace') ->
      unresolved \/ says "Failed to get schema: "%string)
  /\ (countRows (Some a) answers trace = (throw e, trace') ->
      unresolved \/ says "Failed to count rows: "%string)
  /\ (getNetworkUrl (Args.network a) = throw e <->
      e = TypeError /\ existsb (str_eqb (Args.network a)) inherited = true).
Proof.
  intros unresolved says. unfold unresolved, says.
  unfold queryTable, sqlSearch, listCollections, listTables, getSchemaFields, countRows.
  cbv zeta. do 6 (split; [apply tool_fails|]).
  rewrite getNetworkUrl_throws. destruct (existsb _ inherited).
  - split; [by intros [= <-]|by intros [-> _]].
  - split; [done|by intros [_ ?]].
Qed.

(** *** What the tools take for an answer *)




(** The data of an answer is no text: the client decoded it. *)
Lemma classify_data_decoded data :
  match data with JString _ => false | _ => true end = true ->
  classify_data data = throw TypeError.
Proof. by destruct data. Qed.

(** X12. The table query and the count read their answer as text of
    lines. An answer whose data the client has decoded already (a body that
    is one JSON document, served as JSON) fails both, with the TypeError of
    the runtime behind the tool's words, after the one request; the table
    query does not poll again. *)
Theorem decoded_answers_fail a c answers trace r :
  createHttpClient (Args.network a) (Args.access_token a) = ok c ->
  well_formed (text_of (Args.collection_slug a)) = true ->
  well_formed (text_of (Args.table_name a)) = true ->
  answers (requests trace) = Answered r ->
  match data_of r with JString _ => false | _ => true end = true ->
  fst (queryTable (Some a) answers trace)
  = throw (Error [Lit "Failed to query table: "; Runtime])
  /\ requests (snd (queryTable (Some a) answers trace)) = S (requests trace)
  /\ delays (snd (queryTable (Some a) answers trace)) = delays trace
  /\ countRows (Some a) answers trace
     = (throw (Error [Lit "Failed to count rows: "; Runtime]),
        trace ++ [Request c (Another (js "/api/collections/"
                                      ++ encoded (text_of (Args.collection_slug a))
                                      ++ js "/tables/"
                                      ++ encoded (text_of (Args.table_name a))
                                      ++ js "/filter/count"))]).
Proof.
  intros Hc Hs Hn Ha Hd. apply classify_data_decoded in Hd.
  assert (exists payload,
             queryTable (Some a) answers trace
             = (throw (Error [Lit "Failed to query table: "; Runtime]),
                trace ++ [Request c (FilterRows (text_of (Args.collection_slug a))
                                                (text_of (Args.table_name a)) payload)]))
    as (payload & ->).
  { eexists. unfold queryTable. run. rewrite Hc. cbn beta iota. unfold maxPolls.
    erewrite (queryTable_turn_unclassified c _ _ answers trace 9 0 _ Hs Hn r TypeError Ha Hd).
    reflexivity. }
  cbn [fst snd]. rewrite requests_app, delays_app.
  split; [done|]. split; [cbn [requests List.filter length]; lia|].
  split; [cbn [delays omap list_omap]; by rewrite app_nil_r|].
  unfold countRows. run. rewrite Hc. cbn beta iota.
  unfold encodeURIComponent. rewrite Hs, Hn. cbn beta iota. rewrite Ha. cbn beta iota.
  by rewrite Hd.
Qed.

(** The theorem at an answer that is one JSON object, served as JSON. *)
Lemma decoded_answers_fail_witness :
  let answers := fun _ : nat => Answered (Json (JObject [(js "data", JArray [])])) in
  fst (queryTable (Some example_args) answers [])
  = throw (Error [Lit "Failed to query table: "; Runtime])
  /\ requests (snd (queryTable (Some example_args) answers [])) = 1%nat
  /\ delays (snd (queryTable (Some example_args) answers [])) = []
  /\ countRows (Some example_args) answers []
     = (throw (Error [Lit "Failed to count rows: "; Runtime]),
        [Request example_client
           (Another (js "/api/collections/" ++ encoded (js "virusseq") ++ js "/tables/"
                     ++ encoded (js "variants") ++ js "/filter/count"))]).
Proof.
  apply (decoded_answers_fail example_args example_client _ []
           (Json (JObject [(js "data", JArray [])])));
    reflexivity.
Defined.

(** X13. The two listings take an array and nothing else. Whatever else
    the service answers (text, an object, [null]), a listing fails with
    "Expected list of ... but got something else" behind its own words; an
    array whose elements word without exception is the reply. Either way one
    request was sent. *)
Theorem listings_take_an_array a c answers trace r :
  createHttpClient (Args.network a) (Args.access_token a) = ok c ->
  answers (requests trace) = Answered r ->
  listCollections (Some a) answers trace
  = (match data_of r with
     | JArray collections =>
         if existsb collection_throws collections
         then throw (Error [Lit "Failed to list collections: "; Runtime])
         else ok (Collections (Args.network a) collections)
     | _ => throw (Error [Lit "Failed to list collections: ";
                          Lit "Expected list of collections but got something else"])
     end,
     trace ++ [Request c (Another (js "/api/collections"))])
  /\ (well_formed (text_of (Args.collection_slug a)) = true ->
      listTables (Some a) answers trace
      = (match data_of r with
         | JArray tables =>
             if existsb table_throws tables
             then throw (Error [Lit "Failed to list tables: "; Runtime])
             else ok (Tables (Args.collection_slug a) tables)
         | _ => throw (Error [Lit "Failed to list tables: ";
                              Lit "Expected list of tables but got something else"])
         end,
         trace ++ [Request c (Another (js "/api/collections/"
                                       ++ encoded (text_of (Args.collection_slug a))
                                       ++ js "/tables"))])).
Proof.
  intros Hc Ha. split.
  - unfold listCollections. run. rewrite Hc. cbn beta iota. rewrite Ha. cbn beta iota.
    destruct (data_of r) as [| | | |collections|]; try done.
    by destruct (existsb collection_throws collections).
  - intros Hs. unfold listTables. run. rewrite Hc. cbn beta iota.
    unfold encodeURIComponent. rewrite Hs. cbn beta iota. rewrite Ha. cbn beta iota.
    destruct (data_of r) as [| | | |tables|]; try done.
    by destruct (existsb table_throws tables).
Qed.

(** The theorem at a service that answers with a page of HTML. *)
Lemma listings_take_an_array_witness :
  listCollections (Some example_args)
    (fun _ => Answered (Text (Some (js "text/html")) (js "<html></html>"))) []
  = (throw (Error [Lit "Failed to list collections: ";
                   Lit "Expected list of collections but got something else"]),
     [Request example_client (Another (js "/api/collections"))]).
Proof.
  apply (proj1 (listings_take_an_array example_args example_client _ []
                  (Text (Some (js "text/html")) (js "<html></html>"))
                  eq_refl eq_refl)).
Defined.

(** The name of an index starts with a digit, so a key that starts with
    something else names no element and no character. *)
Lemma show_nat_digit i :
  match show_nat i with
  | c :: _ => ((48 <=? c) && (c <=? 57))%N = true
  | [] => True
  end.
Proof. unfold show_nat. by destruct (Nat.to_uint i). Qed.

Lemma at_index_name {A} k (l : list A) :
  match k with c :: _ => ((c <? 48) || (57 <? c))%N | [] => false end = true ->
  forall i, at_index k i l = None.
Proof.
  intros Hk. induction l as [|x l IH]; intros i; [done|]. cbn [at_index].
  replace (str_eqb (show_nat i) k) with false; [apply IH|].
  pose proof (show_nat_digit i) as Hd.
  destruct (show_nat i) as [|d ds], k as [|c k']; try done. cbn [str_eqb].
  replace (d =? c)%N with false; [done|]. symmetry. apply N.eqb_neq.
  apply andb_true_iff in Hd as [H1%N.leb_le H2%N.leb_le].
  apply orb_true_iff in Hk as [H%N.ltb_lt|H%N.ltb_lt]; lia.
Qed.

(** X14. A schema needs properties. The schema request fails with "No
    schema (data_model.properties) found in response" behind its own words
    whenever the answer has no [data_model], or a [data_model] without
    [properties], or [properties] that count as false or have no keys; an
    answer in text is such an answer. *)
Theorem getSchemaFields_needs_properties a c answers trace r :
  createHttpClient (Args.network a) (Args.access_token a) = ok c ->
  well_formed (text_of (Args.collection_slug a)) = true ->
  well_formed (text_of (Args.table_name a)) = true ->
  answers (requests trace) = Answered r ->
  let properties := get_opt (js "properties") (get_opt (js "data_model") (Some (data_of r))) in
  let fails :=
    fst (getSchemaFields (Some a) answers trace)
    = throw (Error [Lit "Failed to get schema: ";
                    Lit "No schema (data_model.properties) found in response"]) in
  (truthy_opt properties = false -> fails)
  /\ (forall p, properties = Some p -> keys_length p = 0%nat -> fails)
  /\ (forall content_type text, r = Text content_type text -> fails)
  /\ (forall p, properties = Some p -> truthy p = true -> (0 < keys_length p)%nat ->
      fst (getSchemaFields (Some a) answers trace)
      = if existsb field_throws (entry_values p)
        then throw (Error [Lit "Failed to get schema: "; Runtime])
        else ok (Schema (Args.table_name a) p)).
Proof.
  intros Hc Hs Hn Ha properties fails.
  assert (fst (getSchemaFields (Some a) answers trace)
          = let dataModel := or_else properties (JObject []) in
            if (keys_length dataModel =? 0)%nat
            then throw (Error [Lit "Failed to get schema: ";
                               Lit "No schema (data_model.properties) found in response"])
            else if existsb field_throws (entry_values dataModel)
                 then throw (Error [Lit "Failed to get schema: "; Runtime])
                 else ok (Schema (Args.table_name a) dataModel)) as Hrun.
  { unfold getSchemaFields. run. rewrite Hc. cbn beta iota.
    unfold encodeURIComponent. rewrite Hs, Hn. cbn beta iota. rewrite Ha. cbn beta iota.
    fold properties. cbv zeta.
    destruct (keys_length (or_else properties (JObject [])) =? 0)%nat; [done|].
    by destruct (existsb field_throws _). }
  assert (forall p, properties = Some p -> keys_length p = 0%nat -> fails) as Hempty.
  { intros p Hp Hk. unfold fails. rewrite Hrun, Hp. cbv zeta. unfold or_else.
    destruct (truthy p); [by rewrite Hk|done]. }
  split; [|split; [done|split]].
  - intros Hfalse. unfold fails. rewrite Hrun. cbv zeta. unfold or_else.
    destruct properties as [p|]; [|done]. cbn [truthy_opt] in Hfalse. by rewrite Hfalse.
  - intros content_type text Hr. unfold fails. rewrite Hrun.
    replace properties with (@None JSON); [done|].
    unfold properties. rewrite Hr. cbn [data_of get_opt own].
    change (str_eqb (js "data_model") (js "length")) with false. cbn beta iota.
    by rewrite at_index_name.
  - intros p Hp Ht Hk. rewrite Hrun, Hp. cbv zeta. unfold or_else. rewrite Ht.
    destruct (keys_length p =? 0)%nat eqn:E; [apply Nat.eqb_eq in E; lia|done].
Qed.

(** The theorem at a service that answers with a page of HTML. *)
Lemma getSchemaFields_needs_properties_witness :
  fst (getSchemaFields (Some example_args)
         (fun _ => Answered (Text (Some (js "text/html")) (js "<html></html>"))) [])
  = throw (Error [Lit "Failed to get schema: ";
                  Lit "No schema (data_model.properties) found in response"]).
Proof.
  apply (proj1 (proj2 (proj2 (getSchemaFields_needs_properties example_args example_client
                                _ [] (Text (Some (js "text/html")) (js "<html></html>"))
                                eq_refl eq_refl eq_refl eq_refl)))
           (Some (js "text/html")) (js "<html></html>") eq_refl).
Defined.



End ToolsFacts.

(** ** The lines of a body *)

Module LinesFacts.
Import JS JSFacts Classifier ClassifierFacts.

Lemma split_line a b : split LF (a ++ LF :: b) = split LF a ++ split LF b.
Proof.
  induction a as [|c a IH]; [done|]. cbn [app split]. rewrite IH.
  destruct (c =? LF)%N; [done|].
  by destruct (split LF a) eqn:E; [destruct (split_not_nil _ _ E)|].
Qed.

Lemma lines_of_line a b : lines_of (a ++ LF :: b) = lines_of a ++ lines_of b.
Proof. unfold lines_of. by rewrite split_line, map_app, List.filter_app. Qed.

(** The classifier reads a body through its lines alone. *)
Lemma parseJsonLinesResponse_lines a b :
  lines_of a = lines_of b -> parseJsonLinesResponse a = parseJsonLinesResponse b.
Proof.
  intros H. unfold parseJsonLinesResponse.
  fold (lines_of (trim a)). fold (lines_of (trim b)). rewrite !lines_of_trim, <- H.
  assert (forall s, is_empty (trim s) = is_empty (lines_of s)) as Hblank.
  { intros s. destruct (lines_of s) as [|l ls] eqn:E.
    - by rewrite (lines_of_nil_blank _ E).
    - destruct (trim s) eqn:Et; [|done].
      by rewrite <- lines_of_trim, Et in E. }
  by rewrite !Hblank, <- H.
Qed.

(** X16. White space around the lines of a body is of no account: a white
    character before a line feed (the carriage return of a line that ends
    in CR LF) or after one, at the start of the body or at its end, and a
    line feed more (a blank line), all leave the classifier's result as it
    is. *)
Theorem whitespace_around_lines a b w :
  isWhite w = true ->
  parseJsonLinesResponse (a ++ w :: LF :: b) = parseJsonLinesResponse (a ++ LF :: b)
  /\ parseJsonLinesResponse (a ++ LF :: w :: b) = parseJsonLinesResponse (a ++ LF :: b)
  /\ parseJsonLinesResponse (w :: a) = parseJsonLinesResponse a
  /\ parseJsonLinesResponse (a ++ [w]) = parseJsonLinesResponse a.
Proof.
  intros Hw. repeat split; apply parseJsonLinesResponse_lines.
  - change (a ++ w :: LF :: b) with (a ++ [w] ++ LF :: b).
    by rewrite app_assoc, !lines_of_line, lines_of_snoc_white.
  - by rewrite !lines_of_line, lines_of_cons_white.
  - by apply lines_of_cons_white.
  - by apply lines_of_snoc_white.
Qed.

(** The theorem at a body of two lines that end in CR LF. *)
Lemma whitespace_around_lines_witness :
  parseJsonLinesResponse (json_text "{'next_page_token':'abc'}" ++ 13%N :: LF
                          :: json_text "{'data':[]}")
  = parseJsonLinesResponse (json_text "{'next_page_token':'abc'}" ++ LF
                            :: json_text "{'data':[]}").
Proof.
  apply (proj1 (whitespace_around_lines (json_text "{'next_page_token':'abc'}")
                  (json_text "{'data':[]}") 13%N eq_refl)).
Defined.

Lemma findLast_elem k l obj :
  findLast k l = ok (Some obj) -> obj ∈ l /\ contains k obj = true.
Proof.
  induction l as [|v l IH]; [done|]. cbn [findLast].
  assert (findLast k l = ok (Some obj) -> obj ∈ v :: l /\ contains k obj = true) as Hrest.
  { intros [H1 H2]%IH. split; [by right|done]. }
  destruct (truthy v); [|done].
  destruct (has_property k v) as [[]|] eqn:Hp; cbn [mbind result_bind]; [|done|done].
  intros [= <-]. split; [by left|].
  destruct v; try done. cbn [has_property] in Hp. cbn [contains]. by injection Hp.
Qed.

(** X17. What the classifier returns is one of the lines of the body as
    parsed, and an object or an array with at least one field: never a line
    that is empty, never a number, a string, a truth value or [null]. *)
Theorem parseJsonLinesResponse_returns_a_line body v :
  parseJsonLinesResponse body = ok v ->
  v ∈ omap JSON_parse (lines_of body)
  /\ is_object v = true
  /\ (0 < field_count v)%nat.
Proof.
  intros Hv. pose proof (parseJsonLinesResponse_object _ _ Hv) as Hobj.
  revert Hv. unfold parseJsonLinesResponse.
  destruct (is_empty (trim body)); [done|].
  fold (lines_of (trim body)). rewrite lines_of_trim.
  destruct (is_empty (lines_of body)); [done|].
  set (parsed := omap JSON_parse (lines_of body)).
  destruct (is_empty parsed); [done|].
  assert (forall k obj, findLast k (rev parsed) = ok (Some obj) ->
                        obj ∈ parsed /\ (0 < field_count obj)%nat) as Hscan.
  { intros k obj [Hin Hc]%findLast_elem.
    split; [apply list_elem_of_In, in_rev; by apply list_elem_of_In|].
    destruct obj as [| | | | |o]; try done. cbn [contains field_count] in Hc |- *.
    apply bool_decide_eq_true in Hc as [x Hx]. destruct o; [done|cbn; lia]. }
  destruct (findLast (js "data") (rev parsed)) as [[obj|]|] eqn:Hd; try done.
  { cbn [mbind result_bind]. intros [= <-]. destruct (Hscan _ _ Hd). done. }
  cbn [mbind result_bind].
  destruct (findLast (js "next_page_token") (rev parsed)) as [[obj|]|] eqn:Ht; try done.
  { cbn [mbind result_bind]. intros [= <-]. destruct (Hscan _ _ Ht). done. }
  cbn [mbind result_bind].
  destruct (last (List.filter nonEmpty parsed)) as [obj|] eqn:Hl; [|done].
  intros [= <-]. apply last_Some in Hl as (l' & Hl).
  assert (obj ∈ List.filter nonEmpty parsed) as Hin.
  { rewrite Hl. apply elem_of_app. right. by constructor. }
  apply list_elem_of_In, filter_In in Hin as [Hin Hne].
  split; [by apply list_elem_of_In|]. split; [done|].
  unfold nonEmpty in Hne. apply andb_true_iff in Hne as [_ Hk%Nat.ltb_lt].
  by destruct obj.
Qed.

(** The theorem at a body whose second line holds the data. *)
Lemma parseJsonLinesResponse_returns_a_line_witness :
  JObject [(js "data", JArray [])]
    ∈ omap JSON_parse (lines_of (json_text "{}|{'data':[]}"))
  /\ is_object (JObject [(js "data", JArray [])]) = true
  /\ (0 < field_count (JObject [(js "data", JArray [])]))%nat.
Proof.
  apply (parseJsonLinesResponse_returns_a_line (json_text "{}|{'data':[]}")).
  reflexivity.
Defined.

End LinesFacts.

(** ** A message and what the worker writes *)

Module HearingFacts.
Import JS JSFacts Bridge BridgeFacts Gateway.

Lemma feed_app a b s : feed (a ++ b) s = feed b (feed a s).
Proof. apply foldl_app. Qed.

Lemma events_heard r es : forall σ,
  objects (foldl handle σ es) r = feed (chunks_of r es) (objects σ r).
Proof.
  induction es as [|e es IH]; intros σ; [done|]. cbn [foldl]. rewrite IH.
  destruct e as [r' data|r']; cbn [chunks_of omap list_omap handle objects]; [|done].
  unfold store. rewrite (Nat.eqb_sym r r').
  by destruct (r' =? r)%nat eqn:E; [apply Nat.eqb_eq in E; subst r'|].
Qed.

Lemma after_heard schedule r k : forall from σ,
  objects (after schedule from k σ) r = feed (heard r schedule from k) (objects σ r).
Proof.
  induction k as [|k IH]; intros from σ; [done|].
  cbn [after heard]. by rewrite IH, events_heard, feed_app.
Qed.

(** X18. What a message sent to a session is answered, in terms of what
    the worker writes. The queue is cleared when the message is written, the
    partial line in the buffer is kept; from then on the queue is what the
    listener makes of the chunks the worker has written so far, and the
    reply is the first message of the queue at the first check that finds
    one, or 504 at the first check after 30000 ms that finds none. *)
Theorem Send_hears_the_worker schedule fuel sessionId r m σ :
  activeSessions σ !! sessionId = Some r ->
  truthy m = true ->
  (301 <= fuel)%nat ->
  let session := objects σ r in
  let cleared :=
    {| id := id session; buffer := buffer session; responses := [];
       stdin := stdin session ++ [m]; killed := killed session |} in
  let queue k := responses (feed (heard r schedule 0 k) cleared) in
  exists k,
    (k <= 301)%nat
    /\ (forall j, (j < k)%nat -> queue j = [])
    /\ fst <$> Send schedule fuel sessionId (Some m) σ
       = Some (match queue k with
               | first :: _ => Message first
               | [] => Failed 504 "Request timeout"
               end)
    /\ (queue k = [] -> (timeout < elapsed_after schedule 0 k)%N).
Proof.
  intros Hr Hm Hfuel session cleared queue. unfold Send. rewrite Hr, Hm.
  assert (forall k, responses (objects (after schedule 0 k (sent r m σ)) r) = queue k)
    as Hqueue.
  { intros k. rewrite after_heard. unfold queue. f_equal. f_equal.
    cbn [sent objects]. unfold store. by rewrite Nat.eqb_refl. }
  destruct (wait_ends schedule r fuel 0 0%N (sent r m σ)) as (k & Hk & Hbefore & Hend);
    [lia|lia|lia|].
  exists k. split; [lia|]. split.
  { intros j Hj. rewrite <- Hqueue. by apply Hbefore. }
  rewrite <- Hqueue.
  destruct Hend as [(first & rest & Hq & ->)|(Hq & Hlate & ->)]; rewrite Hq.
  - split; [done|]. done.
  - split; [done|]. intros _. lia.
Qed.

(** The theorem at a worker that answers in two chunks, during the first
    and the second sleep. *)
Lemma Send_hears_the_worker_witness :
  let schedule := fun i : nat =>
    {| slack := 0;
       events := match i with
                 | O => [Data 0 [x7b; x22; x61; x22; x3a]%byte]
                 | _ => [Data 0 [x31; x7d; x0a]%byte]
                 end |} in
  let σ := snd (Open (js "s1") empty_state) in
  let cleared :=
    {| id := id (objects σ 0); buffer := buffer (objects σ 0); responses := [];
       stdin := stdin (objects σ 0) ++ [JObject []]; killed := killed (objects σ 0) |} in
  let queue k := responses (feed (heard 0 schedule 0 k) cleared) in
  exists k,
    (k <= 301)%nat
    /\ (forall j, (j < k)%nat -> queue j = [])
    /\ fst <$> Send schedule 301 (js "s1") (Some (JObject [])) σ
       = Some (match queue k with
               | first :: _ => Message first
               | [] => Failed 504 "Request timeout"
               end)
    /\ (queue k = [] -> (timeout < elapsed_after schedule 0 k)%N).
Proof.
  apply (Send_hears_the_worker
           (fun i => {| slack := 0;
                        events := match i with
                                  | O => [Data 0 [x7b; x22; x61; x22; x3a]%byte]
                                  | _ => [Data 0 [x31; x7d; x0a]%byte]
                                  end |})
           301 (js "s1") 0 (JObject []) (snd (Open (js "s1") empty_state)));
    [reflexivity|reflexivity|lia].
Defined.

End HearingFacts.

(** ** Wording results *)

Module WordingFacts.
Import JS JSFacts Classifier Engine EngineFacts Tools.

Lemma flat_value members k x :
  forallb (fun member : jsstring * JSON => negb (is_object member.2)) members = true ->
  assoc k members = Some x ->
  is_object x = false.
Proof.
  induction members as [|[k' v] members IH]; [done|]. cbn [forallb assoc snd].
  intros [Hv Hrest]%andb_true_iff. destruct (str_eqb k' k).
  - intros [= <-]. by apply negb_true_iff.
  - by apply IH.
Qed.

Lemma plain_converts v : is_object v = false -> toPrimitive_throws v = false.
Proof. by destruct v. Qed.

Lemma flat_row_words keys row : flat row = true -> row_throws keys row = false.
Proof.
  destruct row as [| | | | |members]; try done. cbn [flat row_throws own]. intros Hflat.
  induction keys as [|k keys IH]; [done|]. cbn [existsb]. rewrite IH, orb_false_r.
  unfold or_else. destruct (assoc k members) as [x|] eqn:Hx; [|done].
  destruct (truthy x); [|done]. by apply plain_converts, (flat_value members k).
Qed.

(** X19. Plain results are always worded. A result whose data is an array
    of rows of plain values (objects whose values are numbers, strings,
    truth values or [null]) and whose total, if it names one, converts to
    text, is worded by [formatSqlResults] without exception; the rows of a
    table query are worded by [formatRows] whenever the offset and the total
    of the pagination convert to text, whatever the rows are. *)
Theorem plain_results_are_worded :
  (forall members rows sql,
      assoc (js "data") members = Some (JArray rows) ->
      forallb flat rows = true ->
      toPrimitive_throws
        (or_else (get_opt (js "total") (assoc (js "pagination") members))
                 (JString (js "unknown"))) = false ->
      formatSqlResults (JObject members) sql = ok (SqlResults (JObject members) sql))
  /\ (forall table_name members,
        let pagination := assoc (js "pagination") members in
        toPrimitive_throws (or_else (get_opt (js "offset") pagination) (of_nat 0)) = false ->
        toPrimitive_throws
          (or_else (get_opt (js "total") pagination) (JString (js "unknown"))) = false ->
        formatRows table_name (JObject members) = ok (Rows table_name (JObject members))).
Proof.
  split.
  - intros members rows sql Hdata Hflat Htotal. unfold formatSqlResults.
    cbn [get own mbind result_bind]. rewrite Hdata. cbn [mbind result_bind own].
    change (str_eqb (js "length") (js "length")) with true. cbn beta iota.
    cbn [of_nat toLocaleString_throws toPrimitive_throws orb]. rewrite Htotal, andb_false_r.
    destruct (take 5 rows) as [|firstRow preview] eqn:Hpreview; [done|].
    assert (forallb flat (firstRow :: preview) = true) as Hfive.
    { rewrite <- Hpreview. apply forallb_forall. intros row Hin.
      rewrite forallb_forall in Hflat. apply Hflat.
      apply list_elem_of_In. apply list_elem_of_In in Hin.
      by apply (subseteq_take 5 rows). }
    destruct firstRow as [| | | | |first]; try done.
    destruct (_ && _); [|done].
    replace (existsb (row_throws (own_keys (JObject first))) (JObject first :: preview))
      with false; [done|].
    symmetry. clear -Hfive. induction (JObject first :: preview) as [|row l IH]; [done|].
    cbn [forallb existsb] in Hfive |- *. apply andb_true_iff in Hfive as [Hrow Hl].
    by rewrite (flat_row_words _ _ Hrow), IH.
  - intros table_name members pagination Hoffset Htotal. unfold formatRows.
    cbn [own]. fold pagination. destruct (truthy_opt pagination); [|done].
    by rewrite Hoffset, Htotal.
Qed.

(** The theorem at a result of two rows with a total. *)
Lemma plain_results_are_worded_witness :
  let members :=
    [(js "data", JArray [JObject [(js "n", of_nat 1)]; JObject [(js "n", JNull)]]);
     (js "pagination", JObject [(js "total", of_nat 2)])] in
  formatSqlResults (JObject members) None = ok (SqlResults (JObject members) None).
Proof.
  apply (proj1 plain_results_are_worded
           [(js "data", JArray [JObject [(js "n", of_nat 1)]; JObject [(js "n", JNull)]]);
            (js "pagination", JObject [(js "total", of_nat 2)])]
           [JObject [(js "n", of_nat 1)]; JObject [(js "n", JNull)]] None);
    reflexivity.
Defined.

End WordingFacts.
